(** * ArduSub/sensors.cpp: barometer calibration monitor and rangefinder pipeline

    A shallow embedding of [Sub::read_barometer], [Sub::init_rangefinder],
    [Sub::read_rangefinder] and [Sub::rangefinder_alt_ok].

    - Machine integers are [Z] with the wrap-around written out ([Int]).
    - The C++ [float] is an interface ([FloatOps]) with two instances:
      [Binary32], IEEE-754 single precision built on the Standard Library's
      [SpecFloat], and [ExactQ], rationals without rounding.  The functions
      of the file are written once, over the interface.
    - Calls into other subsystems (drivers, navigation controllers) are
      recorded as a trace of [Call]s next to the new state. *)

From Stdlib Require Import ZArith QArith Qabs Qround Bool List Lia.
From Stdlib Require Import Floats.SpecFloat.
Import ListNotations.

Open Scope Z_scope.

(** ** Fixed-width integers *)

Module Int.

(** [uint32_t]: arithmetic modulo 2^32. *)
Definition u32 (z : Z) : Z := z mod 2 ^ 32.

(** [int16_t]: two's complement wrap-around into [-32768, 32767]. *)
Definition i16 (z : Z) : Z := (z + 2 ^ 15) mod 2 ^ 16 - 2 ^ 15.

(** [a - b] on two [uint32_t]. *)
Definition u32_sub (a b : Z) : Z := u32 (a - b).

Definition in_i16 (z : Z) : Prop := - 2 ^ 15 <= z < 2 ^ 15.
Definition in_u32 (z : Z) : Prop := 0 <= z < 2 ^ 32.

End Int.

(** ** The [float] interface *)

Class FloatOps : Type := {
  float : Type;
  (** [(float) i] for an integer [i] *)
  float_of_int : Z -> float;
  (** the implicit conversion of a [float] to [int16_t] *)
  int16_of_float : float -> Z;
  fadd : float -> float -> float;
  fsub : float -> float -> float;
  fmul : float -> float -> float;
  (** [a > b] *)
  fgt : float -> float -> bool;
  (** the literals [0.707f] and [0.05f] *)
  lit_0_707 : float;
  lit_0_05 : float
}.

(** *** IEEE-754 single precision *)

Module B32.

Definition prec : Z := 24.
Definition emax : Z := 128.

Definition of_int (z : Z) : spec_float := binary_normalize prec emax z 0 false.

(** Truncation toward zero of a finite value; 0 for NaN and infinities. *)
Definition trunc (x : spec_float) : Z :=
  match x with
  | S754_finite s m e =>
      let a := match e with
               | Z0 => Zpos m
               | Zpos p => Zpos m * 2 ^ Zpos p
               | Zneg p => Zpos m / 2 ^ Zpos p
               end in
      if s then - a else a
  | _ => 0
  end.

(** C++ leaves the conversion undefined when the truncated value does not
    fit [int16_t]; the model wraps it, which makes the function total. *)
Definition to_int16 (x : spec_float) : Z := Int.i16 (trunc x).

Definition gt (a b : spec_float) : bool := SFltb b a.

(** 0.707f = 11861492 * 2^-24 and 0.05f = 13421773 * 2^-28. *)
Definition c_0_707 : spec_float := S754_finite false 11861492 (-24).
Definition c_0_05 : spec_float := S754_finite false 13421773 (-28).

(** 0.75 = 12582912 * 2^-24, a tilt of about 41 degrees. *)
Definition c_0_75 : spec_float := S754_finite false 12582912 (-24).

(** The rational value of a finite float. *)
Definition to_Q (x : spec_float) : Q :=
  match x with
  | S754_finite s m e =>
      let a := match e with
               | Z0 => inject_Z (Zpos m)
               | Zpos p => inject_Z (Zpos m * 2 ^ Zpos p)
               | Zneg p => Qmake (Zpos m) (2 ^ p)
               end in
      if s then Qopp a else a
  | _ => 0%Q
  end.

End B32.

#[export] Instance Binary32 : FloatOps := {|
  float := spec_float;
  float_of_int := B32.of_int;
  int16_of_float := B32.to_int16;
  fadd := SFadd B32.prec B32.emax;
  fsub := SFsub B32.prec B32.emax;
  fmul := SFmul B32.prec B32.emax;
  fgt := B32.gt;
  lit_0_707 := B32.c_0_707;
  lit_0_05 := B32.c_0_05
|}.

(** *** Exact rationals: the same expressions without rounding *)

Module ExQ.

Definition trunc (q : Q) : Z := Z.quot (Qnum q) (Zpos (Qden q)).
Definition to_int16 (q : Q) : Z := Int.i16 (trunc q).
Definition gt (a b : Q) : bool := negb (Qle_bool a b).

End ExQ.

Definition ExactQ : FloatOps := {|
  float := Q;
  float_of_int := inject_Z;
  int16_of_float := ExQ.to_int16;
  fadd := Qplus;
  fsub := Qminus;
  fmul := Qmult;
  fgt := ExQ.gt;
  lit_0_707 := (707 # 1000)%Q;
  lit_0_05 := (5 # 100)%Q
|}.

(** ** Compile-time configuration

    [RANGEFINDER_ENABLED == ENABLED] and [RANGEFINDER_TILT_CORRECTION ==
    ENABLED] are the two preprocessor conditions of the file; the macros
    [RANGEFINDER_HEALTH_MAX] and [RANGEFINDER_TIMEOUT_MS] are defined in a
    header and are parameters here. *)

Record Config : Type := {
  RANGEFINDER_ENABLED : bool;
  RANGEFINDER_TILT_CORRECTION : bool;
  RANGEFINDER_HEALTH_MAX : Z;
  RANGEFINDER_TIMEOUT_MS : Z
}.

(** ** Calibration monitor *)

Module Baro.

(** Modelled from the spec: the barometer driver is declared outside this
    file.  [getAltitudeCm() -> signed int] and [isHealthy(index) -> bool]
    are the values the driver reports after [update()]. *)
Record AP_Baro : Type := {
  get_altitude : Z;
  healthy : Z -> bool
}.

Inductive Call : Type :=
| update
| update_calibration.

(** The members of [Sub] that [read_barometer] reads or writes. *)
Record SubBaro : Type := {
  depth_sensor_present : bool;
  depth_sensor_idx : Z;
  sensor_health_depth : bool
}.

Definition read_barometer (sub : SubBaro) (barometer : AP_Baro)
  : SubBaro * list Call :=
  let calls :=
    [update] ++
    (if 0 <? get_altitude barometer then [update_calibration] else []) in
  let sub' :=
    if depth_sensor_present sub
    then {| depth_sensor_present := depth_sensor_present sub;
            depth_sensor_idx := depth_sensor_idx sub;
            sensor_health_depth := healthy barometer (depth_sensor_idx sub) |}
    else sub in
  (sub', calls).

(** The self-calibration routine was invoked during the call. *)
Definition calibration_triggered (r : SubBaro * list Call) : Prop :=
  In update_calibration (snd r).

End Baro.

(** ** Rangefinder pipeline *)

(** Modelled from the spec: [RangeFinder::Status] is declared outside this
    file; an enum [{Good, NoData, OutOfRange, ...}] of which the code only
    tests [Good]. *)
Inductive Status : Type :=
| NotConnected
| NoData
| OutOfRangeLow
| OutOfRangeHigh
| Good.

Definition Status_eqb (a b : Status) : bool :=
  match a, b with
  | NotConnected, NotConnected
  | NoData, NoData
  | OutOfRangeLow, OutOfRangeLow
  | OutOfRangeHigh, OutOfRangeHigh
  | Good, Good => true
  | _, _ => false
  end.

(** What the rangefinder driver reports for [ROTATION_PITCH_270] once
    [rangefinder.update()] has run. *)
Record RangeFinder : Type := {
  has_orientation : bool;
  status_orient : Status;
  range_valid_count_orient : Z;
  signal_quality_pct : Z;
  distance_cm_orient : Z;
  min_distance_cm_orient : Z;
  max_distance_cm_orient : Z
}.

Section Rangefinder.

Context {F : FloatOps}.

(** Modelled from the spec: the class [LowPassFilterFloat] is declared
    outside this file.  The filter holds one internal value ([output]), the
    "filter's internal value" of the specification, next to the cutoff
    frequency that [init_rangefinder] sets. *)
Record LowPassFilterFloat : Type := { output : float; cutoff_freq : float }.

(** Modelled from the spec: [set_cutoff_frequency] is not in this file and
    the specification is silent on it; the model records the frequency and
    leaves the internal value alone. *)
Definition set_cutoff_frequency (f : LowPassFilterFloat) (hz : float)
  : LowPassFilterFloat :=
  {| output := output f; cutoff_freq := hz |}.

(** Modelled from the spec: [reset] is not in this file; "reset the filter's
    internal value directly" to the given value. *)
Definition reset (f : LowPassFilterFloat) (value : float) : LowPassFilterFloat :=
  {| output := value; cutoff_freq := cutoff_freq f |}.

(** Modelled from the spec: [apply] is not in this file; "one step of
    exponential smoothing with a fixed small gain" toward the sample,
    [new = old + gain * (sample - old)]. *)
Definition apply (f : LowPassFilterFloat) (sample gain : float)
  : LowPassFilterFloat :=
  {| output := fadd (output f) (fmul gain (fsub sample (output f)));
     cutoff_freq := cutoff_freq f |}.

(** Modelled from the spec: [get] is not in this file; it reads the
    internal value. *)
Definition get (f : LowPassFilterFloat) : float := output f.

(** Modelled from the spec: the macro [MAX] is defined outside this file;
    the maximum of its arguments, computed as [a > b ? a : b]. *)
Definition MAX (a b : float) : float := if fgt a b then a else b.

(** The member [rangefinder_state] of [Sub]. *)
Record rangefinder_state_t : Type := {
  enabled : bool;
  alt_healthy : bool;
  alt_cm : Z;
  min_cm : Z;
  max_cm : Z;
  last_healthy_ms : Z;
  alt_cm_filt : LowPassFilterFloat
}.

(** What one call reads from the rest of the vehicle: the driver, the
    attitude estimator ([ahrs.get_rotation_body_to_ned().c.z]), the clock
    ([AP_HAL::millis()], a [uint32_t]), the position estimator and the
    waypoint controller's [rangefinder_used()]. *)
Record Env : Type := {
  rangefinder : RangeFinder;
  ahrs_c_z : float;
  millis : Z;
  position_z_up_cm : float;
  wp_nav_rangefinder_used : bool
}.

Inductive Call : Type :=
| rangefinder_update
| wp_nav_set_rangefinder_terrain_offset (e h : bool) (offset_cm : float)
| circle_nav_set_rangefinder_terrain_offset (e h : bool) (offset_cm : float).

Variable cfg : Config.

(** [init_rangefinder]: the calls that configure the driver (log bit,
    orientation) leave [rangefinder_state] alone; the state gets the cutoff
    frequency of the filter and the [enabled] flag. *)
Definition init_rangefinder (s : rangefinder_state_t) (rf : RangeFinder)
    (RANGEFINDER_WPNAV_FILT_HZ : float) : rangefinder_state_t :=
  if RANGEFINDER_ENABLED cfg then
    {| enabled := has_orientation rf;
       alt_healthy := alt_healthy s;
       alt_cm := alt_cm s;
       min_cm := min_cm s;
       max_cm := max_cm s;
       last_healthy_ms := last_healthy_ms s;
       alt_cm_filt := set_cutoff_frequency (alt_cm_filt s) RANGEFINDER_WPNAV_FILT_HZ |}
  else s.

(** Lines 37-40: the health evaluation. *)
Definition health (rf : RangeFinder) : bool :=
  Status_eqb (status_orient rf) Good
  && (RANGEFINDER_HEALTH_MAX cfg <=? range_valid_count_orient rf)
  && ((signal_quality_pct rf =? -1) || (90 <? signal_quality_pct rf)).

(** Line 46: the tilt correction of an [int16_t] distance. *)
Definition correct_for_tilt (temp_alt : Z) (c_z : float) : Z :=
  int16_of_float (fmul (float_of_int temp_alt) (MAX lit_0_707 c_z)).

(** Lines 42-47: [temp_alt] when it is stored into [alt_cm]. *)
Definition corrected_alt (env : Env) : Z :=
  let temp_alt := Int.i16 (distance_cm_orient (rangefinder env)) in
  if RANGEFINDER_TILT_CORRECTION cfg
  then correct_for_tilt temp_alt (ahrs_c_z env)
  else temp_alt.

(** Lines 56-64: the filter and the time stamp after the cycle. *)
Definition update_filter (healthy : bool) (sample now : Z)
    (last : Z) (filt : LowPassFilterFloat) : Z * LowPassFilterFloat :=
  if healthy then
    (now,
     if Int.u32 (RANGEFINDER_TIMEOUT_MS cfg) <? Int.u32_sub now last
     then reset filt (float_of_int sample)
     else apply filt (float_of_int sample) lit_0_05)
  else (last, filt).

Definition read_rangefinder (s : rangefinder_state_t) (env : Env)
  : rangefinder_state_t * list Call :=
  if RANGEFINDER_ENABLED cfg then
    let healthy := health (rangefinder env) in
    let temp_alt := corrected_alt env in
    let now := millis env in
    let '(last, filt) :=
      update_filter healthy temp_alt now (last_healthy_ms s) (alt_cm_filt s) in
    let terrain_offset_cm := fsub (position_z_up_cm env) (get filt) in
    ({| enabled := enabled s;
        alt_healthy := healthy;
        alt_cm := temp_alt;
        min_cm := min_distance_cm_orient (rangefinder env);
        max_cm := max_distance_cm_orient (rangefinder env);
        last_healthy_ms := last;
        alt_cm_filt := filt |},
     [ rangefinder_update;
       wp_nav_set_rangefinder_terrain_offset
         (enabled s) healthy terrain_offset_cm;
       circle_nav_set_rangefinder_terrain_offset
         (enabled s && wp_nav_rangefinder_used env) healthy terrain_offset_cm ])
  else
    ({| enabled := false;
        alt_healthy := false;
        alt_cm := 0;
        min_cm := min_cm s;
        max_cm := max_cm s;
        last_healthy_ms := last_healthy_ms s;
        alt_cm_filt := alt_cm_filt s |},
     []).

Definition rangefinder_alt_ok (s : rangefinder_state_t) (now : Z) : bool :=
  enabled s && alt_healthy s
  && (Int.u32_sub now (last_healthy_ms s) <? Int.u32 (RANGEFINDER_TIMEOUT_MS cfg)).

End Rangefinder.

Arguments read_rangefinder {F} cfg s env.
Arguments rangefinder_alt_ok {F} cfg s now.

(** ** Rounding to nearest even, in integer arithmetic

    The functions below restate what [SpecFloat] computes when it rounds a
    positive integer mantissa to 24 bits; they are related to [SFmul] in
    the properties part and used to reason about the tilt correction in
    single precision. *)

(** [p / 2^n] rounded to the nearest integer, ties to even. *)
Definition rne (p n : Z) : Z :=
  let q := p / 2 ^ n in
  let r := p mod 2 ^ n in
  if 2 * r <? 2 ^ n then q
  else if 2 ^ n <? 2 * r then q + 1
  else if Z.even q then q else q + 1.

(** [p] rounded to 24 significant bits. *)
Definition round24 (p : Z) : Z :=
  let n := Z.log2 p - 23 in rne p n * 2 ^ n.

(** The record [shr] reaches after [k] one-bit shifts of [m]: quotient,
    round bit and sticky bit. *)
Definition shifted (m k : Z) : shr_record :=
  {| shr_m := m / 2 ^ k;
     shr_r := Z.testbit m (k - 1);
     shr_s := negb (m mod 2 ^ (k - 1) =? 0) |}.

(** The value of a positive finite float, times 2^24. *)
Definition frac24 (x : spec_float) : Z :=
  match x with
  | S754_finite false m e => Zpos m * 2 ^ (e + 24)
  | _ => 0
  end.

(** The integer part of the single-precision product of [raw], an integer in
    [1, 32767], and a factor [m24 / 2^24] in [0.5, 1]. *)
Definition tilt_model (raw m24 : Z) : Z :=
  round24 (raw * 2 ^ (23 - Z.log2 raw) * m24) / 2 ^ (47 - Z.log2 raw).

(** ** Concrete configurations, states and inputs

    Used to run the model: the scenarios of the specification and the
    inputs at which a property is checked by evaluation. *)

Definition cfg_example : Config :=
  {| RANGEFINDER_ENABLED := true;
     RANGEFINDER_TILT_CORRECTION := true;
     RANGEFINDER_HEALTH_MAX := 10;
     RANGEFINDER_TIMEOUT_MS := 1000 |}.

Definition cfg_compiled_out : Config :=
  {| RANGEFINDER_ENABLED := false;
     RANGEFINDER_TILT_CORRECTION := true;
     RANGEFINDER_HEALTH_MAX := 10;
     RANGEFINDER_TIMEOUT_MS := 1000 |}.

Definition filt_zero : @LowPassFilterFloat Binary32 :=
  {| output := S754_zero false; cutoff_freq := S754_zero false |}.

(** A state whose [enabled] flag is off: no sensor with the orientation. *)
Definition state_disabled : @rangefinder_state_t Binary32 :=
  {| enabled := false; alt_healthy := false; alt_cm := 0;
     min_cm := 0; max_cm := 0; last_healthy_ms := 0;
     alt_cm_filt := filt_zero |}.

(** An enabled state, last healthy at 3000 ms, filter at 250.0. *)
Definition state_tracking : @rangefinder_state_t Binary32 :=
  {| enabled := true; alt_healthy := true; alt_cm := 250;
     min_cm := 20; max_cm := 700; last_healthy_ms := 3000;
     alt_cm_filt := {| output := B32.of_int 250; cutoff_freq := S754_zero false |} |}.

Definition rf_reading (st : Status) (count quality distance : Z) : RangeFinder :=
  {| has_orientation := true; status_orient := st;
     range_valid_count_orient := count; signal_quality_pct := quality;
     distance_cm_orient := distance;
     min_distance_cm_orient := 20; max_distance_cm_orient := 700 |}.

(** Level vehicle ([c.z = 1.0]), vertical position -1000.0 cm. *)
Definition env_level (rf : RangeFinder) (now : Z) : @Env Binary32 :=
  {| rangefinder := rf; ahrs_c_z := B32.of_int 1; millis := now;
     position_z_up_cm := B32.of_int (-1000); wp_nav_rangefinder_used := true |}.

Definition baro_at (altitude : Z) : Baro.AP_Baro :=
  {| Baro.get_altitude := altitude; Baro.healthy := fun _ => true |}.

Definition sub_baro0 : Baro.SubBaro :=
  {| Baro.depth_sensor_present := true; Baro.depth_sensor_idx := 0;
     Baro.sensor_health_depth := false |}.

(** The same tracking state and a level environment in exact arithmetic. *)
Definition state_tracking_Q : @rangefinder_state_t ExactQ :=
  {| enabled := true; alt_healthy := true; alt_cm := 250;
     min_cm := 20; max_cm := 700; last_healthy_ms := 3000;
     alt_cm_filt := @Build_LowPassFilterFloat ExactQ 250%Q 0%Q |}.

Definition env_level_Q (rf : RangeFinder) (now : Z) : @Env ExactQ :=
  @Build_Env ExactQ rf 1%Q now (-1000)%Q true.

(** ** Consecutive cycles

    The scheduler calls [read_rangefinder] and [read_barometer] once per
    loop; a run is the list of what the calls read, oldest first. *)

(** The state after one call of [read_rangefinder] per environment. *)
Definition run_rangefinder {F : FloatOps} (cfg : Config)
    (s : rangefinder_state_t) (envs : list Env) : rangefinder_state_t :=
  fold_left (fun st env => fst (read_rangefinder cfg st env)) envs s.

(** The clock values of a run never go back, starting from [t0]. *)
Fixpoint clock_monotone {F : FloatOps} (t0 : Z) (envs : list Env) : Prop :=
  match envs with
  | [] => True
  | env :: rest => t0 <= millis env /\ clock_monotone (millis env) rest
  end.

(** The state and all the driver calls after one call of [read_barometer]
    per reading. *)
Fixpoint run_barometer (sub : Baro.SubBaro) (readings : list Baro.AP_Baro)
  : Baro.SubBaro * list Baro.Call :=
  match readings with
  | [] => (sub, [])
  | b :: rest =>
      let '(sub1, calls1) := Baro.read_barometer sub b in
      let '(sub2, calls2) := run_barometer sub1 rest in
      (sub2, calls1 ++ calls2)
  end.

Definition is_update_calibration (c : Baro.Call) : bool :=
  match c with Baro.update_calibration => true | Baro.update => false end.

Definition is_update (c : Baro.Call) : bool :=
  match c with Baro.update => true | Baro.update_calibration => false end.

(** * Properties *)

(** ** Integer helpers *)

Lemma u32_small (z : Z) : Int.in_u32 z -> Int.u32 z = z.
Proof. unfold Int.in_u32, Int.u32. intros H. apply Z.mod_small. exact H. Qed.

Lemma u32_sub_no_wrap (now last : Z) :
  0 <= last <= now -> now < 2 ^ 32 -> Int.u32_sub now last = now - last.
Proof.
  intros H1 H2. unfold Int.u32_sub. apply u32_small. unfold Int.in_u32. lia.
Qed.

Lemma i16_small (z : Z) : Int.in_i16 z -> Int.i16 z = z.
Proof.
  unfold Int.in_i16, Int.i16. intros H.
  rewrite Z.mod_small; lia.
Qed.

Lemma i16_range (z : Z) : Int.in_i16 (Int.i16 z).
Proof.
  unfold Int.in_i16, Int.i16.
  pose proof (Z.mod_pos_bound (z + 2 ^ 15) (2 ^ 16)). lia.
Qed.

Lemma Status_eqb_eq (a b : Status) : Status_eqb a b = true <-> a = b.
Proof. destruct a, b; simpl; split; intros H; congruence. Qed.

(** ** Single-precision arithmetic

    What [SpecFloat] computes, restated on integers: shifts, rounding to
    nearest even, products and conversions of the floats the pipeline
    handles. *)

(** [iter_pos f p] is [f] applied [p] times. *)
Lemma iter_pos_comm {A : Type} (f : A -> A) (p : positive) (x : A) :
  iter_pos f p (f x) = f (iter_pos f p x).
Proof.
  revert x. induction p as [p IH | p IH |]; intros x; simpl.
  - rewrite !IH. reflexivity.
  - rewrite !IH. reflexivity.
  - reflexivity.
Qed.

Lemma iter_pos_succ {A : Type} (f : A -> A) (p : positive) (x : A) :
  iter_pos f (Pos.succ p) x = f (iter_pos f p x).
Proof.
  revert x. induction p as [p IH | p IH |]; intros x; simpl.
  - rewrite !IH. rewrite !iter_pos_comm. reflexivity.
  - rewrite !iter_pos_comm. reflexivity.
  - reflexivity.
Qed.

(** One shift halves the mantissa, keeps the bit shifted out as round bit
    and collects the earlier ones in the sticky bit. *)
Lemma shr_1_nonneg (m : Z) (r s : bool) :
  0 <= m ->
  shr_1 {| shr_m := m; shr_r := r; shr_s := s |}
  = {| shr_m := m / 2; shr_r := Z.odd m; shr_s := r || s |}.
Proof.
  intros H. rewrite <- Z.div2_div.
  destruct m as [| p | p]; [reflexivity | | lia].
  destruct p; reflexivity.
Qed.

Lemma sticky_step (m k : Z) :
  0 <= m -> 0 <= k ->
  Z.testbit m k || negb (m mod 2 ^ k =? 0) = negb (m mod 2 ^ (k + 1) =? 0).
Proof.
  intros Hm Hk.
  assert (Hp : 0 < 2 ^ k) by (apply Z.pow_pos_nonneg; lia).
  rewrite Z.pow_add_r by lia. change (2 ^ 1) with 2.
  rewrite Z.rem_mul_r by lia.
  pose proof (Z.testbit_spec' m k Hk) as Hb.
  rewrite <- Hb.
  pose proof (Z.mod_pos_bound m (2 ^ k) Hp) as Hr.
  destruct (Z.testbit m k); simpl Z.b2z.
  - simpl. symmetry. apply negb_true_iff. apply Z.eqb_neq. nia.
  - simpl. rewrite Z.mul_0_r, Z.add_0_r. reflexivity.
Qed.

(** [p] shifts from an exact mantissa reach [shifted m p]. *)
Lemma iter_shr_1 (m : Z) (p : positive) :
  0 <= m ->
  iter_pos shr_1 p {| shr_m := m; shr_r := false; shr_s := false |}
  = shifted m (Zpos p).
Proof.
  intros Hm. induction p as [| p IH] using Pos.peano_ind.
  - cbn [iter_pos]. rewrite shr_1_nonneg by exact Hm. unfold shifted.
    change (1 - 1) with 0. rewrite Z.pow_0_r, Z.mod_1_r, Z.pow_1_r.
    rewrite Z.bit0_odd. reflexivity.
  - rewrite iter_pos_succ, IH. unfold shifted.
    assert (Hq : 0 <= m / 2 ^ Zpos p)
      by (apply Z.div_pos; [exact Hm | apply Z.pow_pos_nonneg; lia]).
    rewrite shr_1_nonneg by exact Hq.
    rewrite Pos2Z.inj_succ.
    replace (Z.succ (Zpos p) - 1) with (Zpos p - 1 + 1) by lia.
    f_equal.
    + rewrite Z.pow_succ_r by lia. rewrite Z.div_div by (try apply Z.pow_pos_nonneg; lia).
      f_equal. lia.
    + replace (Zpos p - 1 + 1) with (Zpos p) by lia.
      rewrite Z.testbit_odd, Z.shiftr_div_pow2 by lia. reflexivity.
    + apply sticky_step; lia.
Qed.

(** [round_nearest_even] on the shifted record is [rne]. *)
Lemma rne_shifted (p n : Z) :
  0 <= p -> 1 <= n ->
  round_nearest_even (shr_m (shifted p n)) (loc_of_shr_record (shifted p n))
  = rne p n.
Proof.
  intros Hp Hn. unfold shifted, rne. cbn [shr_m loc_of_shr_record].
  assert (Hk : 0 < 2 ^ (n - 1)) by (apply Z.pow_pos_nonneg; lia).
  assert (E2 : 2 ^ n = 2 ^ (n - 1) * 2).
  { replace n with (n - 1 + 1) at 1 by lia. rewrite Z.pow_add_r by lia. reflexivity. }
  assert (Er : p mod 2 ^ n
               = p mod 2 ^ (n - 1) + 2 ^ (n - 1) * Z.b2z (Z.testbit p (n - 1))).
  { rewrite E2, Z.rem_mul_r by lia. rewrite Z.testbit_spec' by lia. reflexivity. }
  pose proof (Z.mod_pos_bound p (2 ^ (n - 1)) Hk) as Hr.
  rewrite Er, E2.
  destruct (Z.testbit p (n - 1)); cbn [Z.b2z];
    destruct (p mod 2 ^ (n - 1) =? 0) eqn:Es; cbn [negb round_nearest_even].
  - apply Z.eqb_eq in Es. rewrite Es.
    replace (2 * (0 + 2 ^ (n - 1) * 1)) with (2 ^ (n - 1) * 2) by lia.
    rewrite !Z.ltb_irrefl. reflexivity.
  - apply Z.eqb_neq in Es.
    destruct (2 * (p mod 2 ^ (n - 1) + 2 ^ (n - 1) * 1) <? 2 ^ (n - 1) * 2) eqn:A;
      [apply Z.ltb_lt in A; lia |].
    destruct (2 ^ (n - 1) * 2 <? 2 * (p mod 2 ^ (n - 1) + 2 ^ (n - 1) * 1)) eqn:B;
      [reflexivity | apply Z.ltb_ge in B; lia].
  - apply Z.eqb_eq in Es. rewrite Es.
    replace (2 * (0 + 2 ^ (n - 1) * 0) <? 2 ^ (n - 1) * 2) with true
      by (symmetry; apply Z.ltb_lt; lia).
    reflexivity.
  - replace (2 * (p mod 2 ^ (n - 1) + 2 ^ (n - 1) * 0) <? 2 ^ (n - 1) * 2) with true
      by (symmetry; apply Z.ltb_lt; lia).
    reflexivity.
Qed.

(** The number of binary digits is [Z.log2 + 1]. *)
Lemma digits2_pos_size (p : positive) : digits2_pos p = Pos.size p.
Proof. induction p; simpl; congruence. Qed.

Lemma Zdigits2_log2 (p : positive) : Zdigits2 (Zpos p) = Z.log2 (Zpos p) + 1.
Proof.
  unfold Zdigits2. rewrite digits2_pos_size.
  destruct p; simpl; lia.
Qed.

Lemma rne_bounds (p n : Z) :
  0 <= n -> p / 2 ^ n <= rne p n <= p / 2 ^ n + 1.
Proof.
  intros Hn. unfold rne.
  destruct (2 * (p mod 2 ^ n) <? 2 ^ n); [lia |].
  destruct (2 ^ n <? 2 * (p mod 2 ^ n)); [lia |].
  destruct (Z.even (p / 2 ^ n)); lia.
Qed.

(** Dropping all but the 24 leading bits leaves a normal mantissa. *)
Lemma log2_quot_bounds (p : Z) :
  0 < p -> 23 <= Z.log2 p ->
  2 ^ 23 <= p / 2 ^ (Z.log2 p - 23) < 2 ^ 24.
Proof.
  intros Hp Hl. set (n := Z.log2 p - 23).
  destruct (Z.log2_spec p Hp) as [L U].
  assert (Hn : 0 < 2 ^ n) by (apply Z.pow_pos_nonneg; lia).
  assert (E1 : 2 ^ Z.log2 p = 2 ^ 23 * 2 ^ n).
  { rewrite <- Z.pow_add_r by lia. f_equal. lia. }
  assert (E2 : 2 ^ Z.succ (Z.log2 p) = 2 ^ 24 * 2 ^ n).
  { rewrite <- Z.pow_add_r by lia. f_equal. lia. }
  split.
  - apply Z.div_le_lower_bound; [exact Hn | lia].
  - apply Z.div_lt_upper_bound; [exact Hn | lia].
Qed.

(** [binary_round_aux] on an exact mantissa of more than 24 bits, away from
    underflow and overflow: the result is the finite float whose value is
    [round24 p] in units of [2^e]. *)
Lemma binary_round_aux_normal (sx : bool) (p : positive) (e : Z) :
  let n := Z.log2 (Zpos p) - 23 in
  1 <= n -> -149 <= e + n -> e + n < 104 ->
  exists (mf : positive) (ef : Z),
    binary_round_aux 24 128 sx (Zpos p) e loc_Exact = S754_finite sx mf ef
    /\ e + n <= ef <= e + n + 1
    /\ Zpos mf * 2 ^ (ef - e) = round24 (Zpos p).
Proof.
  intros n Hn Hlo Hhi.
  pose proof (log2_quot_bounds (Zpos p) eq_refl ltac:(lia)) as Hq. fold n in Hq.
  pose proof (rne_bounds (Zpos p) n ltac:(lia)) as Hb.
  unfold binary_round_aux, shr_fexp.
  rewrite Zdigits2_log2.
  replace (fexp 24 128 (Z.log2 (Zpos p) + 1 + e) - e) with n
    by (unfold fexp, emin; lia).
  cbn [shr_record_of_loc].
  destruct n as [| pn | pn] eqn:En; [lia | | lia].
  cbn [shr]. rewrite iter_shr_1 by lia. rewrite rne_shifted by lia.
  rewrite <- En in *. clear En pn.
  unfold round24. fold n.
  set (m2 := rne (Zpos p) n) in *.
  assert (Hm2 : 2 ^ 23 <= m2 <= 2 ^ 24) by lia.
  destruct (Z.eq_dec m2 (2 ^ 24)) as [Et | Nt].
  - rewrite Et.
    change (Zdigits2 (2 ^ 24)) with 25.
    replace (fexp 24 128 (25 + (e + n)) - (e + n)) with 1
      by (unfold fexp, emin; lia).
    assert (S1 : shr {| shr_m := 2 ^ 24; shr_r := false; shr_s := false |} (e + n) 1
                 = ({| shr_m := Zpos 8388608; shr_r := false; shr_s := false |},
                    e + n + 1)) by reflexivity.
    rewrite S1. cbn [shr_m].
    replace (e + n + 1 <=? 128 - 24) with true by (symmetry; apply Z.leb_le; lia).
    exists 8388608%positive, (e + n + 1). split; [reflexivity |]. split; [lia |].
    replace (e + n + 1 - e) with (n + 1) by lia.
    rewrite Z.pow_add_r by lia.
    change (2 ^ 24) with 16777216. change (2 ^ 1) with 2. lia.
  - destruct m2 as [| pm | pm] eqn:Em; [lia | | lia].
    rewrite Zdigits2_log2.
    assert (Hl : Z.log2 (Zpos pm) = 23).
    { apply Z.log2_unique; [lia |]. change (Z.succ 23) with 24. lia. }
    rewrite Hl.
    replace (fexp 24 128 (23 + 1 + (e + n)) - (e + n)) with 0
      by (unfold fexp, emin; lia).
    cbn [shr shr_record_of_loc shr_m].
    replace (e + n <=? 128 - 24) with true by (symmetry; apply Z.leb_le; lia).
    exists pm, (e + n). split; [reflexivity |]. split; [lia |].
    replace (e + n - e) with n by lia. reflexivity.
Qed.

(** Rounding to nearest even is monotone. *)
Lemma rne_mono (p1 p2 n : Z) :
  0 <= n -> p1 <= p2 -> rne p1 n <= rne p2 n.
Proof.
  intros Hn Hp. unfold rne.
  assert (HN : 0 < 2 ^ n) by (apply Z.pow_pos_nonneg; lia).
  pose proof (Z.div_mod p1 (2 ^ n) ltac:(lia)) as D1.
  pose proof (Z.div_mod p2 (2 ^ n) ltac:(lia)) as D2.
  pose proof (Z.mod_pos_bound p1 (2 ^ n) HN) as B1.
  pose proof (Z.mod_pos_bound p2 (2 ^ n) HN) as B2.
  set (q1 := p1 / 2 ^ n) in *. set (r1 := p1 mod 2 ^ n) in *.
  set (q2 := p2 / 2 ^ n) in *. set (r2 := p2 mod 2 ^ n) in *.
  set (N := 2 ^ n) in *. clearbody q1 r1 q2 r2 N.
  assert (C : q1 < q2 \/ (q1 = q2 /\ r1 <= r2)) by nia.
  destruct C as [C | [C Cr]].
  - assert (L1 : (if 2 * r1 <? N then q1
                  else if N <? 2 * r1 then q1 + 1
                  else if Z.even q1 then q1 else q1 + 1) <= q1 + 1).
    { destruct (2 * r1 <? N); [lia |]. destruct (N <? 2 * r1); [lia |].
      destruct (Z.even q1); lia. }
    assert (L2 : q2 <= (if 2 * r2 <? N then q2
                  else if N <? 2 * r2 then q2 + 1
                  else if Z.even q2 then q2 else q2 + 1)).
    { destruct (2 * r2 <? N); [lia |]. destruct (N <? 2 * r2); [lia |].
      destruct (Z.even q2); lia. }
    lia.
  - subst q2.
    destruct (2 * r1 <? N) eqn:A1; destruct (2 * r2 <? N) eqn:A2;
      destruct (N <? 2 * r1) eqn:B1'; destruct (N <? 2 * r2) eqn:B2';
      destruct (Z.even q1);
      try apply Z.ltb_lt in A1; try apply Z.ltb_ge in A1;
      try apply Z.ltb_lt in A2; try apply Z.ltb_ge in A2;
      try apply Z.ltb_lt in B1'; try apply Z.ltb_ge in B1';
      try apply Z.ltb_lt in B2'; try apply Z.ltb_ge in B2'; lia.
Qed.

Lemma round24_mono (p1 p2 : Z) :
  0 < p1 -> 23 <= Z.log2 p1 -> p1 <= p2 -> round24 p1 <= round24 p2.
Proof.
  intros H0 Hl Hp. unfold round24.
  assert (Hl2 : Z.log2 p1 <= Z.log2 p2) by (apply Z.log2_le_mono; exact Hp).
  destruct (Z.eq_dec (Z.log2 p1) (Z.log2 p2)) as [E | N].
  - rewrite <- E. apply Z.mul_le_mono_nonneg_r.
    + apply Z.pow_nonneg. lia.
    + apply rne_mono; lia.
  - pose proof (log2_quot_bounds p1 H0 Hl) as Q1.
    pose proof (log2_quot_bounds p2 ltac:(lia) ltac:(lia)) as Q2.
    pose proof (rne_bounds p1 (Z.log2 p1 - 23) ltac:(lia)) as R1.
    pose proof (rne_bounds p2 (Z.log2 p2 - 23) ltac:(lia)) as R2.
    set (n1 := Z.log2 p1 - 23) in *. set (n2 := Z.log2 p2 - 23) in *.
    assert (Hn : n1 + 1 <= n2) by (unfold n1, n2; lia).
    assert (H1 : 0 < 2 ^ n1) by (apply Z.pow_pos_nonneg; unfold n1; lia).
    assert (H2 : 2 ^ (n1 + 1) <= 2 ^ n2) by (apply Z.pow_le_mono_r; lia).
    rewrite Z.pow_add_r in H2 by (unfold n1; lia). change (2 ^ 1) with 2 in H2.
    change (2 ^ 23) with 8388608 in *. change (2 ^ 24) with 16777216 in *.
    transitivity (16777216 * 2 ^ n1); [nia |].
    transitivity (8388608 * 2 ^ n2); [lia | nia].
Qed.

(** A 24-bit mantissa times a power of two is not changed. *)
Lemma round24_exact (m k : Z) :
  2 ^ 23 <= m < 2 ^ 24 -> 0 <= k -> round24 (m * 2 ^ k) = m * 2 ^ k.
Proof.
  intros Hm Hk. unfold round24.
  assert (HK : 0 < 2 ^ k) by (apply Z.pow_pos_nonneg; lia).
  assert (Hl : Z.log2 (m * 2 ^ k) = 23 + k).
  { apply Z.log2_unique; [lia |].
    replace (Z.succ (23 + k)) with (24 + k) by lia.
    rewrite !Z.pow_add_r by lia. nia. }
  rewrite Hl. replace (23 + k - 23) with k by lia.
  unfold rne. rewrite Z.div_mul, Z.mod_mul by lia.
  replace (2 * 0 <? 2 ^ k) with true by (symmetry; apply Z.ltb_lt; lia).
  reflexivity.
Qed.

Lemma trunc_nonpos (m : positive) (e : Z) :
  e <= 0 -> B32.trunc (S754_finite false m e) = Zpos m / 2 ^ (- e).
Proof.
  intros He. unfold B32.trunc.
  destruct e as [| p | p]; [| lia |].
  - change (- 0) with 0. rewrite Z.pow_0_r, Z.div_1_r. reflexivity.
  - reflexivity.
Qed.

(** The integer part of a single-precision product of two positive finite
    floats, when the product has more than 24 bits and is below 2^24. *)
Lemma mul_trunc (ma mb : positive) (ea eb : Z) :
  let p := Zpos (ma * mb) in
  let n := Z.log2 p - 23 in
  1 <= n -> -149 <= ea + eb + n -> ea + eb + n + 1 <= 0 ->
  B32.trunc (SFmul 24 128 (S754_finite false ma ea) (S754_finite false mb eb))
  = round24 p / 2 ^ (- (ea + eb)).
Proof.
  intros p n Hn Hlo Hhi.
  assert (Hhi' : ea + eb + n < 104) by lia.
  destruct (binary_round_aux_normal false (ma * mb) (ea + eb) Hn Hlo Hhi')
    as [mf [ef [Hr [He Hv]]]].
  change (ea + eb + n <= ef <= ea + eb + n + 1) in He. fold p in Hv.
  unfold SFmul. cbn [xorb]. rewrite Hr.
  rewrite trunc_nonpos by lia. rewrite <- Hv.
  replace (- (ea + eb)) with (- ef + (ef - (ea + eb))) by lia.
  rewrite Z.pow_add_r by lia.
  rewrite Z.div_mul_cancel_r; [reflexivity | |];
    apply Z.pow_nonzero; lia.
Qed.

(** A mantissa of exactly 24 bits is kept as it is. *)
Lemma binary_round_aux_exact (sx : bool) (m : positive) (e : Z) :
  Z.log2 (Zpos m) = 23 -> -149 <= e <= 104 ->
  binary_round_aux 24 128 sx (Zpos m) e loc_Exact = S754_finite sx m e.
Proof.
  intros Hl He. unfold binary_round_aux, shr_fexp.
  rewrite Zdigits2_log2, Hl.
  replace (fexp 24 128 (23 + 1 + e) - e) with 0 by (unfold fexp, emin; lia).
  cbn [shr shr_record_of_loc shr_m loc_of_shr_record round_nearest_even].
  rewrite Zdigits2_log2, Hl.
  replace (fexp 24 128 (23 + 1 + e) - e) with 0 by (unfold fexp, emin; lia).
  cbn [shr shr_m].
  replace (e <=? 128 - 24) with true by (symmetry; apply Z.leb_le; lia).
  reflexivity.
Qed.

Lemma pos_iter_xO (p k : positive) :
  Zpos (Pos.iter xO p k) = Zpos p * 2 ^ Zpos k.
Proof.
  induction k as [| k IH] using Pos.peano_ind.
  - cbn [Pos.iter]. rewrite Pos2Z.inj_xO. change (2 ^ 1) with 2. lia.
  - rewrite Pos.iter_succ, Pos2Z.inj_succ, Z.pow_succ_r by lia.
    rewrite Pos2Z.inj_xO, IH. lia.
Qed.

(** Conversion of an integer below 2^23 in absolute value: the mantissa is
    the integer shifted to 24 bits and the value is the integer itself. *)
Lemma binary_round_int (sx : bool) (p : positive) :
  Zpos p < 2 ^ 23 ->
  let l := Z.log2 (Zpos p) in
  binary_round 24 128 sx p 0
  = S754_finite sx (Z.to_pos (Zpos p * 2 ^ (23 - l))) (l - 23)
  /\ 0 <= l <= 22
  /\ 2 ^ 23 <= Zpos p * 2 ^ (23 - l) < 2 ^ 24.
Proof.
  intros Hr l.
  destruct (Z.log2_spec (Zpos p) eq_refl) as [L U]. fold l in L, U.
  assert (Hl0 : 0 <= l) by apply Z.log2_nonneg.
  assert (Hl : l <= 22).
  { assert (l < 23); [| lia]. apply (Z.pow_lt_mono_r_iff 2); lia. }
  assert (Hs : 2 ^ 23 <= Zpos p * 2 ^ (23 - l) < 2 ^ 24).
  { assert (E1 : 2 ^ 23 = 2 ^ l * 2 ^ (23 - l))
      by (rewrite <- Z.pow_add_r by lia; f_equal; lia).
    assert (E2 : 2 ^ 24 = 2 ^ Z.succ l * 2 ^ (23 - l))
      by (rewrite <- Z.pow_add_r by lia; f_equal; lia).
    assert (0 < 2 ^ (23 - l)) by (apply Z.pow_pos_nonneg; lia).
    rewrite E1, E2. nia. }
  split; [| split; [lia | exact Hs]].
  unfold binary_round.
  change (Zpos (digits2_pos p)) with (Zdigits2 (Zpos p)).
  rewrite Zdigits2_log2. fold l.
  replace (fexp 24 128 (l + 1 + 0)) with (l - 23)
    by (unfold fexp, emin; lia).
  unfold shl_align.
  replace (l - 23 - 0) with (Zneg (Z.to_pos (23 - l))) by lia.
  assert (Em : Zpos (Pos.iter xO p (Z.to_pos (23 - l))) = Zpos p * 2 ^ (23 - l)).
  { rewrite pos_iter_xO. rewrite Z2Pos.id by lia. reflexivity. }
  rewrite <- Em, Pos2Z.id.
  apply binary_round_aux_exact; [| lia].
  rewrite Em. apply Z.log2_unique; [lia |]. exact Hs.
Qed.

Lemma of_int_pos (raw : Z) :
  1 <= raw < 2 ^ 15 ->
  let l := Z.log2 raw in
  B32.of_int raw = S754_finite false (Z.to_pos (raw * 2 ^ (23 - l))) (l - 23)
  /\ 0 <= l <= 14
  /\ 2 ^ 23 <= raw * 2 ^ (23 - l) < 2 ^ 24.
Proof.
  intros Hr l.
  destruct raw as [| p | p]; [lia | | lia].
  destruct (binary_round_int false p ltac:(lia)) as [E [Hl Hs]]. fold l in E, Hl, Hs.
  assert (l < 15).
  { apply (Z.pow_lt_mono_r_iff 2); [lia | lia |].
    destruct (Z.log2_spec (Zpos p) eq_refl) as [L _]. fold l in L. lia. }
  split; [exact E | split; [lia | exact Hs]].
Qed.

Lemma to_Q_scaled (sx : bool) (z k : Z) :
  0 < z -> 0 < k ->
  (B32.to_Q (S754_finite sx (Z.to_pos (z * 2 ^ k)) (- k))
   == inject_Z (if sx then - z else z))%Q.
Proof.
  intros Hz Hk. unfold B32.to_Q.
  destruct k as [| pk | pk]; [lia | | lia].
  cbn [Z.opp].
  assert (Hp : 0 < 2 ^ Zpos pk) by (apply Z.pow_pos_nonneg; lia).
  assert (E : (Zpos (Z.to_pos (z * 2 ^ Zpos pk)) # 2 ^ pk == inject_Z z)%Q).
  { unfold Qeq, inject_Z. cbn [Qnum Qden].
    rewrite Z2Pos.id by nia. rewrite Pos2Z.inj_pow. lia. }
  destruct sx.
  - rewrite E. unfold Qeq, inject_Z, Qopp. cbn [Qnum Qden]. lia.
  - exact E.
Qed.

(** [(float) z] is exact for every [z] below 2^23 in absolute value, so for
    every [int16_t]. *)
Lemma of_int_exact (z : Z) :
  - 2 ^ 23 < z < 2 ^ 23 -> (B32.to_Q (B32.of_int z) == inject_Z z)%Q.
Proof.
  intros Hz. unfold B32.of_int, binary_normalize.
  destruct z as [| p | p].
  - reflexivity.
  - destruct (binary_round_int false p ltac:(lia)) as [E [Hl _]].
    unfold B32.prec, B32.emax. rewrite E.
    replace (Z.log2 (Zpos p) - 23) with (- (23 - Z.log2 (Zpos p))) by lia.
    apply (to_Q_scaled false); lia.
  - destruct (binary_round_int true p ltac:(lia)) as [E [Hl _]].
    unfold B32.prec, B32.emax. rewrite E.
    replace (Z.log2 (Zpos p) - 23) with (- (23 - Z.log2 (Zpos p))) by lia.
    apply (to_Q_scaled true (Zpos p)); lia.
Qed.

(** *** Comparison of positive finite floats *)

Lemma SFleb_pos (m1 m2 : positive) (e1 e2 : Z) :
  SFleb (S754_finite false m1 e1) (S754_finite false m2 e2) = true
  <-> e1 < e2 \/ (e1 = e2 /\ Zpos m1 <= Zpos m2).
Proof.
  unfold SFleb, SFcompare. change (Pos.compare_cont Eq m1 m2) with (m1 ?= m2)%positive.
  destruct (Z.compare_spec e1 e2) as [E | E | E].
  - destruct (Pos.compare_spec m1 m2) as [M | M | M]; split; intros H;
      try discriminate; try reflexivity; try lia.
  - split; [lia | reflexivity].
  - split; [discriminate | lia].
Qed.

Lemma SFltb_pos (m1 m2 : positive) (e1 e2 : Z) :
  SFltb (S754_finite false m1 e1) (S754_finite false m2 e2) = true
  <-> e1 < e2 \/ (e1 = e2 /\ Zpos m1 < Zpos m2).
Proof.
  unfold SFltb, SFcompare. change (Pos.compare_cont Eq m1 m2) with (m1 ?= m2)%positive.
  destruct (Z.compare_spec e1 e2) as [E | E | E].
  - destruct (Pos.compare_spec m1 m2) as [M | M | M]; split; intros H;
      try discriminate; try reflexivity; try lia.
  - split; [lia | reflexivity].
  - split; [discriminate | lia].
Qed.

Lemma SFleb_SFltb_trans (z1 z2 : spec_float) (mk : positive) (ek : Z) :
  SFleb z1 z2 = true ->
  SFltb z2 (S754_finite false mk ek) = true ->
  SFltb z1 (S754_finite false mk ek) = true.
Proof.
  intros H1 H2.
  destruct z1 as [s1 | s1 | | s1 m1 e1]; try destruct s1;
    try reflexivity; try discriminate H1;
    destruct z2 as [s2 | s2 | | s2 m2 e2]; try destruct s2;
    try reflexivity; try discriminate H1; try discriminate H2.
  apply SFleb_pos in H1. apply SFltb_pos in H2. apply SFltb_pos. lia.
Qed.

Lemma SFleb_trans_pos (z1 z2 : spec_float) (mk : positive) (ek : Z) :
  SFleb z1 z2 = true ->
  SFleb z2 (S754_finite false mk ek) = true ->
  SFleb z1 (S754_finite false mk ek) = true.
Proof.
  intros H1 H2.
  destruct z1 as [s1 | s1 | | s1 m1 e1]; try destruct s1;
    try reflexivity; try discriminate H1;
    destruct z2 as [s2 | s2 | | s2 m2 e2]; try destruct s2;
    try reflexivity; try discriminate H1; try discriminate H2.
  apply SFleb_pos in H1. apply SFleb_pos in H2. apply SFleb_pos. lia.
Qed.

(** ** The calibration monitor *)

Lemma calibration_triggered_iff (sub : Baro.SubBaro) (b : Baro.AP_Baro) :
  Baro.calibration_triggered (Baro.read_barometer sub b) <-> 0 < Baro.get_altitude b.
Proof.
  unfold Baro.calibration_triggered, Baro.read_barometer. simpl.
  destruct (0 <? Baro.get_altitude b) eqn:E.
  - apply Z.ltb_lt in E. split; [intros _; exact E | intros _; right; left; reflexivity].
  - apply Z.ltb_ge in E. split.
    + intros [H | []]. discriminate H.
    + lia.
Qed.

(** C7, as stated, fails: at altitude 0 the calibration routine is not
    invoked (and at altitude 150 it is). *)
Lemma C7_surface_counterexample :
  ~ (Baro.calibration_triggered (Baro.read_barometer sub_baro0 (baro_at 0))
     /\ ~ Baro.calibration_triggered (Baro.read_barometer sub_baro0 (baro_at 150))).
Proof.
  intros [H _]. apply calibration_triggered_iff in H. simpl in H. lia.
Qed.

(** C7, amended: [read_barometer] invokes the self-calibration routine exactly
    when the reported altitude is strictly positive; so an altitude of 0 cm
    does not trigger it and an altitude of 150 cm does. *)
Theorem C7_calibration_iff_positive :
  forall (sub : Baro.SubBaro) (h : Z -> bool),
    (forall b, Baro.calibration_triggered (Baro.read_barometer sub b)
               <-> 0 < Baro.get_altitude b)
    /\ ~ Baro.calibration_triggered
           (Baro.read_barometer sub {| Baro.get_altitude := 0; Baro.healthy := h |})
    /\ Baro.calibration_triggered
           (Baro.read_barometer sub {| Baro.get_altitude := 150; Baro.healthy := h |}).
Proof.
  intros sub h. split; [| split].
  - intros b. apply calibration_triggered_iff.
  - rewrite calibration_triggered_iff. simpl. lia.
  - rewrite calibration_triggered_iff. simpl. lia.
Qed.

(** ** One cycle of [read_rangefinder], field by field *)

Section Cycle.

Context {F : FloatOps}.
Variable cfg : Config.
Variable s : rangefinder_state_t.
Variable env : Env.

Let s' := fst (read_rangefinder cfg s env).

Hypothesis compiled_in : RANGEFINDER_ENABLED cfg = true.

Lemma cycle_state :
  s' = {| enabled := enabled s;
          alt_healthy := health cfg (rangefinder env);
          alt_cm := corrected_alt cfg env;
          min_cm := min_distance_cm_orient (rangefinder env);
          max_cm := max_distance_cm_orient (rangefinder env);
          last_healthy_ms :=
            fst (update_filter cfg (health cfg (rangefinder env))
                   (corrected_alt cfg env) (millis env)
                   (last_healthy_ms s) (alt_cm_filt s));
          alt_cm_filt :=
            snd (update_filter cfg (health cfg (rangefinder env))
                   (corrected_alt cfg env) (millis env)
                   (last_healthy_ms s) (alt_cm_filt s)) |}.
Proof.
  unfold s', read_rangefinder. rewrite compiled_in.
  destruct (update_filter _ _ _ _ _ _) as [last filt]. reflexivity.
Qed.

Lemma cycle_calls :
  snd (read_rangefinder cfg s env) =
  [ rangefinder_update;
    wp_nav_set_rangefinder_terrain_offset (enabled s) (alt_healthy s')
      (fsub (position_z_up_cm env) (get (alt_cm_filt s')));
    circle_nav_set_rangefinder_terrain_offset
      (enabled s && wp_nav_rangefinder_used env) (alt_healthy s')
      (fsub (position_z_up_cm env) (get (alt_cm_filt s'))) ].
Proof.
  unfold s', read_rangefinder. rewrite compiled_in.
  destruct (update_filter _ _ _ _ _ _) as [last filt]. reflexivity.
Qed.

End Cycle.

Lemma health_true_iff (cfg : Config) (rf : RangeFinder) :
  health cfg rf = true <->
  status_orient rf = Good
  /\ RANGEFINDER_HEALTH_MAX cfg <= range_valid_count_orient rf
  /\ (signal_quality_pct rf = -1 \/ 90 < signal_quality_pct rf).
Proof.
  unfold health.
  rewrite !andb_true_iff, orb_true_iff, Status_eqb_eq,
          Z.leb_le, Z.eqb_eq, Z.ltb_lt.
  tauto.
Qed.

(** ** Disabled sensor *)

(** C1, as stated, fails: with the subsystem compiled in, a state whose
    [enabled] flag is off and a driver that reports a good sample of 500 cm
    give [alt_healthy = true] and [alt_cm = 500]. *)
Lemma C1_enabled_off_counterexample :
  ~ (forall (cfg : Config) (s : @rangefinder_state_t Binary32) (env : Env),
        enabled s = false ->
        alt_healthy (fst (read_rangefinder cfg s env)) = false
        /\ alt_cm (fst (read_rangefinder cfg s env)) = 0).
Proof.
  intros H.
  destruct (H cfg_example state_disabled
              (env_level (rf_reading Good 10 95 500) 5000) eq_refl) as [Hh _].
  vm_compute in Hh. discriminate Hh.
Qed.

(** C1, amended: when the rangefinder subsystem is compiled out, after
    [read_rangefinder] the flags [enabled] and [alt_healthy] are false and
    [alt_cm] is 0, for every input and every earlier state; when it is
    compiled in, [enabled] is kept and not consulted: [alt_healthy] is the
    health evaluation of the driver's report, false whenever the status is
    not [Good], and [alt_cm] the corrected distance of the cycle. *)
Theorem C1_compiled_out_unhealthy_zero :
  forall (F : FloatOps) (cfg : Config) (s : rangefinder_state_t) (env : Env),
    (RANGEFINDER_ENABLED cfg = false ->
       enabled (fst (read_rangefinder cfg s env)) = false
       /\ alt_healthy (fst (read_rangefinder cfg s env)) = false
       /\ alt_cm (fst (read_rangefinder cfg s env)) = 0)
    /\ (RANGEFINDER_ENABLED cfg = true ->
       enabled (fst (read_rangefinder cfg s env)) = enabled s
       /\ alt_healthy (fst (read_rangefinder cfg s env)) = health cfg (rangefinder env)
       /\ alt_cm (fst (read_rangefinder cfg s env)) = corrected_alt cfg env
       /\ (status_orient (rangefinder env) <> Good ->
           alt_healthy (fst (read_rangefinder cfg s env)) = false)).
Proof.
  intros F cfg s env. split; intros H.
  - unfold read_rangefinder. rewrite H. simpl. auto.
  - rewrite (cycle_state cfg s env H). simpl. repeat split.
    intros Hs. apply not_true_is_false. intros Ht.
    apply health_true_iff in Ht. tauto.
Qed.

Lemma C1_compiled_out_unhealthy_zero_witness :
  enabled (fst (read_rangefinder cfg_compiled_out state_tracking
                  (env_level (rf_reading Good 10 95 500) 5000))) = false
  /\ alt_healthy (fst (read_rangefinder cfg_compiled_out state_tracking
                  (env_level (rf_reading Good 10 95 500) 5000))) = false
  /\ alt_cm (fst (read_rangefinder cfg_compiled_out state_tracking
                  (env_level (rf_reading Good 10 95 500) 5000))) = 0.
Proof.
  apply (C1_compiled_out_unhealthy_zero Binary32 cfg_compiled_out state_tracking
           (env_level (rf_reading Good 10 95 500) 5000)).
  reflexivity.
Defined.

(** ** Health evaluation *)

(** C2: with the subsystem compiled in, [alt_healthy] is true after the cycle
    exactly when the status is [Good], the valid count reaches
    [RANGEFINDER_HEALTH_MAX] and the signal quality is -1 or above 90.  With
    a good status and a sufficient count, a quality of -1 or in (90,100]
    gives true, and a quality at most 90 other than -1 gives false. *)
Theorem C2_health_iff :
  forall (F : FloatOps) (cfg : Config) (s : rangefinder_state_t) (env : Env),
    RANGEFINDER_ENABLED cfg = true ->
    let rf := rangefinder env in
    let s' := fst (read_rangefinder cfg s env) in
    (alt_healthy s' = true <->
       status_orient rf = Good
       /\ RANGEFINDER_HEALTH_MAX cfg <= range_valid_count_orient rf
       /\ (signal_quality_pct rf = -1 \/ 90 < signal_quality_pct rf))
    /\ (status_orient rf = Good ->
        RANGEFINDER_HEALTH_MAX cfg <= range_valid_count_orient rf ->
        (signal_quality_pct rf = -1 \/ 90 < signal_quality_pct rf <= 100 ->
           alt_healthy s' = true)
        /\ (signal_quality_pct rf <= 90 -> signal_quality_pct rf <> -1 ->
           alt_healthy s' = false)).
Proof.
  intros F cfg s env Hc rf s'.
  assert (Hs : alt_healthy s' = health cfg rf).
  { unfold s'. rewrite (cycle_state cfg s env Hc). reflexivity. }
  rewrite Hs. split.
  - apply health_true_iff.
  - intros Hg Hn. split.
    + intros Hq. apply health_true_iff. repeat split; try assumption. lia.
    + intros Hq1 Hq2. apply not_true_is_false. intros Ht.
      apply health_true_iff in Ht. lia.
Qed.

Lemma C2_health_iff_witness :
  alt_healthy (fst (read_rangefinder cfg_example state_tracking
                      (env_level (rf_reading Good 10 95 500) 3020))) = true
  /\ alt_healthy (fst (read_rangefinder cfg_example state_tracking
                      (env_level (rf_reading Good 10 50 500) 3020))) = false.
Proof.
  split.
  - apply (C2_health_iff Binary32 cfg_example state_tracking
             (env_level (rf_reading Good 10 95 500) 3020) eq_refl);
      simpl; try reflexivity; lia.
  - apply (C2_health_iff Binary32 cfg_example state_tracking
             (env_level (rf_reading Good 10 50 500) 3020) eq_refl);
      simpl; try reflexivity; lia.
Defined.

(** ** Scenarios of the specification *)

(** Distance 500 cm, status [Good], valid count 10 with a threshold of 10,
    quality 95, level vehicle: healthy, and [alt_cm] is 500. *)
Example scenario_good_sample :
  let s' := fst (read_rangefinder cfg_example state_tracking
                   (env_level (rf_reading Good 10 95 500) 3020)) in
  alt_healthy s' = true /\ alt_cm s' = 500.
Proof. split; reflexivity. Qed.

(** The same with quality 50: not healthy. *)
Example scenario_poor_quality :
  alt_healthy (fst (read_rangefinder cfg_example state_tracking
                      (env_level (rf_reading Good 10 50 500) 3020))) = false.
Proof. reflexivity. Qed.

(** 1000 cm at a rotation component of 0.75: 750 cm; below the floor the
    factor stays 0.707f: 707 cm at 0.0. *)
Example scenario_tilted :
  @correct_for_tilt Binary32 1000 B32.c_0_75 = 750
  /\ @correct_for_tilt Binary32 1000 (S754_zero false) = 707.
Proof. split; reflexivity. Qed.

(** ** Filter: reset after a gap, blend otherwise, untouched when unhealthy *)

Lemma update_filter_unhealthy {F : FloatOps} (cfg : Config)
    (sample now last : Z) (filt : LowPassFilterFloat) :
  update_filter cfg false sample now last filt = (last, filt).
Proof. reflexivity. Qed.

Lemma update_filter_reset {F : FloatOps} (cfg : Config)
    (sample now last : Z) (filt : LowPassFilterFloat) :
  Int.u32 (RANGEFINDER_TIMEOUT_MS cfg) < Int.u32_sub now last ->
  update_filter cfg true sample now last filt
  = (now, reset filt (float_of_int sample)).
Proof.
  intros H. unfold update_filter. apply Z.ltb_lt in H. rewrite H. reflexivity.
Qed.

Lemma update_filter_blend {F : FloatOps} (cfg : Config)
    (sample now last : Z) (filt : LowPassFilterFloat) :
  Int.u32_sub now last <= Int.u32 (RANGEFINDER_TIMEOUT_MS cfg) ->
  update_filter cfg true sample now last filt
  = (now, apply filt (float_of_int sample) lit_0_05).
Proof.
  intros H. unfold update_filter. apply Z.ltb_ge in H. rewrite H. reflexivity.
Qed.

Lemma corrected_alt_i16 (cfg : Config) (env : @Env Binary32) :
  Int.in_i16 (corrected_alt cfg env).
Proof.
  unfold corrected_alt. destruct (RANGEFINDER_TILT_CORRECTION cfg).
  - unfold correct_for_tilt. cbn [int16_of_float Binary32]. apply i16_range.
  - apply i16_range.
Qed.

(** C3: on a healthy cycle whose clock is more than [RANGEFINDER_TIMEOUT_MS]
    past [last_healthy_ms] (a [uint32_t] difference), the filter's value
    after the cycle is the cycle's corrected sample [alt_cm] converted to
    [float], whatever the filter held before; in single precision the
    conversion is exact, so the filter's value is the integer [alt_cm]. *)
Theorem C3_reset_after_timeout :
  forall cfg : Config,
    (forall (F : FloatOps) (s : rangefinder_state_t) (env : Env),
        RANGEFINDER_ENABLED cfg = true ->
        alt_healthy (fst (read_rangefinder cfg s env)) = true ->
        Int.u32 (RANGEFINDER_TIMEOUT_MS cfg)
          < Int.u32_sub (millis env) (last_healthy_ms s) ->
        let s' := fst (read_rangefinder cfg s env) in
        alt_cm s' = corrected_alt cfg env
        /\ get (alt_cm_filt s') = float_of_int (alt_cm s')
        /\ forall s0 : rangefinder_state_t,
             last_healthy_ms s0 = last_healthy_ms s ->
             get (alt_cm_filt (fst (read_rangefinder cfg s0 env)))
             = get (alt_cm_filt s'))
    /\ (forall (s : @rangefinder_state_t Binary32) (env : Env),
        RANGEFINDER_ENABLED cfg = true ->
        alt_healthy (fst (read_rangefinder cfg s env)) = true ->
        Int.u32 (RANGEFINDER_TIMEOUT_MS cfg)
          < Int.u32_sub (millis env) (last_healthy_ms s) ->
        let s' := fst (read_rangefinder cfg s env) in
        (B32.to_Q (get (alt_cm_filt s')) == inject_Z (alt_cm s'))%Q).
Proof.
  intros cfg.
  assert (Hgen : forall (F : FloatOps) (s : rangefinder_state_t) (env : Env),
        RANGEFINDER_ENABLED cfg = true ->
        alt_healthy (fst (read_rangefinder cfg s env)) = true ->
        Int.u32 (RANGEFINDER_TIMEOUT_MS cfg)
          < Int.u32_sub (millis env) (last_healthy_ms s) ->
        alt_cm (fst (read_rangefinder cfg s env)) = corrected_alt cfg env
        /\ get (alt_cm_filt (fst (read_rangefinder cfg s env)))
           = float_of_int (alt_cm (fst (read_rangefinder cfg s env)))
        /\ forall s0 : rangefinder_state_t,
             last_healthy_ms s0 = last_healthy_ms s ->
             get (alt_cm_filt (fst (read_rangefinder cfg s0 env)))
             = get (alt_cm_filt (fst (read_rangefinder cfg s env)))).
  { intros F s env Hc Hh Ht.
    rewrite (cycle_state cfg s env Hc) in *. simpl in *.
    rewrite Hh, update_filter_reset by exact Ht. simpl.
    repeat split.
    intros s0 Hl. rewrite (cycle_state cfg s0 env Hc). simpl.
    rewrite Hh, Hl, update_filter_reset by exact Ht. reflexivity. }
  split.
  - intros F s env Hc Hh Ht s'. apply Hgen; assumption.
  - intros s env Hc Hh Ht s'. unfold s'.
    destruct (Hgen Binary32 s env Hc Hh Ht) as [Ea [Eg _]].
    rewrite Eg, Ea. cbn [float_of_int Binary32].
    pose proof (corrected_alt_i16 cfg env) as R. unfold Int.in_i16 in R.
    apply of_int_exact. lia.
Qed.

(** The scenario of the specification: a gap of 2000 ms with a timeout of
    1000 ms, then a healthy sample of 300 cm; the filter, at 250.0 before,
    holds exactly 300.0 after. *)
Lemma C3_reset_after_timeout_witness :
  get (alt_cm_filt (fst (read_rangefinder cfg_example state_tracking
                           (env_level (rf_reading Good 10 95 300) 5000))))
  = B32.of_int 300
  /\ (B32.to_Q (get (alt_cm_filt (fst (read_rangefinder cfg_example state_tracking
                           (env_level (rf_reading Good 10 95 300) 5000)))))
      == 300)%Q.
Proof.
  split.
  - apply (proj1 (C3_reset_after_timeout cfg_example) Binary32 state_tracking
             (env_level (rf_reading Good 10 95 300) 5000));
      vm_compute; reflexivity.
  - apply (proj2 (C3_reset_after_timeout cfg_example) state_tracking
             (env_level (rf_reading Good 10 95 300) 5000));
      vm_compute; reflexivity.
Defined.

(** C9: a cycle that evaluates [alt_healthy] to false leaves the filter and
    [last_healthy_ms] as they were; so a cycle that changes the filter's
    value is a healthy one. *)
Theorem C9_unhealthy_keeps_filter :
  forall (F : FloatOps) (cfg : Config) (s : rangefinder_state_t) (env : Env),
    let s' := fst (read_rangefinder cfg s env) in
    (alt_healthy s' = false ->
       alt_cm_filt s' = alt_cm_filt s
       /\ last_healthy_ms s' = last_healthy_ms s)
    /\ (get (alt_cm_filt s') <> get (alt_cm_filt s) -> alt_healthy s' = true).
Proof.
  intros F cfg s env s'.
  assert (Hu : alt_healthy s' = false ->
               alt_cm_filt s' = alt_cm_filt s
               /\ last_healthy_ms s' = last_healthy_ms s).
  { unfold s'. destruct (RANGEFINDER_ENABLED cfg) eqn:Hc.
    - rewrite (cycle_state cfg s env Hc). simpl. intros Hh.
      rewrite Hh, update_filter_unhealthy. simpl. auto.
    - unfold read_rangefinder. rewrite Hc. simpl. auto. }
  split; [exact Hu |].
  intros Hne. destruct (alt_healthy s') eqn:Hh; [reflexivity |].
  destruct (Hu eq_refl) as [Hf _]. rewrite Hf in Hne. contradiction.
Qed.

Lemma C9_unhealthy_keeps_filter_witness :
  alt_cm_filt (fst (read_rangefinder cfg_example state_tracking
                      (env_level (rf_reading Good 10 50 500) 3020)))
  = alt_cm_filt state_tracking
  /\ last_healthy_ms (fst (read_rangefinder cfg_example state_tracking
                             (env_level (rf_reading Good 10 50 500) 3020)))
     = 3000.
Proof.
  apply (C9_unhealthy_keeps_filter Binary32 cfg_example state_tracking
           (env_level (rf_reading Good 10 50 500) 3020)).
  vm_compute. reflexivity.
Defined.

(** C10: with the subsystem compiled in, every call overwrites [alt_cm] with
    the corrected distance of the cycle and [min_cm], [max_cm] with the
    bounds the driver reports, whatever [alt_healthy] evaluates to: the
    three fields after the call do not depend on the state before it. *)
Theorem C10_alt_min_max_overwritten :
  forall (F : FloatOps) (cfg : Config) (s : rangefinder_state_t) (env : Env),
    RANGEFINDER_ENABLED cfg = true ->
    let s' := fst (read_rangefinder cfg s env) in
    alt_cm s' = corrected_alt cfg env
    /\ min_cm s' = min_distance_cm_orient (rangefinder env)
    /\ max_cm s' = max_distance_cm_orient (rangefinder env)
    /\ forall s0 : rangefinder_state_t,
         alt_cm (fst (read_rangefinder cfg s0 env)) = alt_cm s'
         /\ min_cm (fst (read_rangefinder cfg s0 env)) = min_cm s'
         /\ max_cm (fst (read_rangefinder cfg s0 env)) = max_cm s'.
Proof.
  intros F cfg s env Hc s'. unfold s'.
  rewrite (cycle_state cfg s env Hc). simpl. repeat split.
  all: rewrite (cycle_state cfg s0 env Hc); reflexivity.
Qed.

(** An unhealthy cycle (quality 50) over a state holding 250 / 20 / 700:
    the fields become 480 / 20 / 700. *)
Lemma C10_alt_min_max_overwritten_witness :
  alt_healthy (fst (read_rangefinder cfg_example state_tracking
                      (env_level (rf_reading Good 10 50 480) 3020))) = false
  /\ alt_cm (fst (read_rangefinder cfg_example state_tracking
                      (env_level (rf_reading Good 10 50 480) 3020))) = 480.
Proof.
  split; [reflexivity |].
  etransitivity.
  - apply (C10_alt_min_max_overwritten Binary32 cfg_example state_tracking
             (env_level (rf_reading Good 10 50 480) 3020) eq_refl).
  - reflexivity.
Defined.

(** C4, as stated, fails in single precision: every operation of the blend
    step is rounded, and the rounded step can be longer than 0.05 times the
    distance.  A filter at 250.0 and a healthy sample of 252 cm, 20 ms after
    the last healthy one, give 250.100006103515625: the filter moves by more
    than 0.05 * 2. *)
Lemma C4_blend_bound_counterexample :
  ~ (forall (cfg : Config) (s : @rangefinder_state_t Binary32) (env : Env),
        RANGEFINDER_ENABLED cfg = true ->
        alt_healthy (fst (read_rangefinder cfg s env)) = true ->
        Int.u32_sub (millis env) (last_healthy_ms s)
          <= Int.u32 (RANGEFINDER_TIMEOUT_MS cfg) ->
        let s' := fst (read_rangefinder cfg s env) in
        (Qabs (B32.to_Q (get (alt_cm_filt s')) - B32.to_Q (get (alt_cm_filt s)))
         <= (5 # 100) * Qabs (inject_Z (alt_cm s') - B32.to_Q (get (alt_cm_filt s))))%Q).
Proof.
  intros H.
  assert (Ht : Int.u32_sub 3020 3000 <= Int.u32 1000) by (vm_compute; discriminate).
  pose proof (H cfg_example state_tracking
                (env_level (rf_reading Good 10 95 252) 3020) eq_refl eq_refl Ht) as C.
  vm_compute in C. apply C. reflexivity.
Qed.

(** C4, amended: on a healthy cycle at most [RANGEFINDER_TIMEOUT_MS] after
    [last_healthy_ms], the filter makes one blend step with gain 0.05,
    [new = old + 0.05 * (alt_cm - old)], each operation in the arithmetic of
    the code; in exact arithmetic the step moves the filter by at most 0.05
    times the distance between the sample and the old value. *)
Theorem C4_blend_within_timeout :
  forall cfg : Config,
    (forall (F : FloatOps) (s : rangefinder_state_t) (env : Env),
        RANGEFINDER_ENABLED cfg = true ->
        alt_healthy (fst (read_rangefinder cfg s env)) = true ->
        Int.u32_sub (millis env) (last_healthy_ms s)
          <= Int.u32 (RANGEFINDER_TIMEOUT_MS cfg) ->
        let s' := fst (read_rangefinder cfg s env) in
        get (alt_cm_filt s')
        = fadd (get (alt_cm_filt s))
            (fmul lit_0_05
               (fsub (float_of_int (alt_cm s')) (get (alt_cm_filt s)))))
    /\ (forall (s : @rangefinder_state_t ExactQ) (env : @Env ExactQ),
        RANGEFINDER_ENABLED cfg = true ->
        alt_healthy (fst (read_rangefinder cfg s env)) = true ->
        Int.u32_sub (millis env) (last_healthy_ms s)
          <= Int.u32 (RANGEFINDER_TIMEOUT_MS cfg) ->
        let s' := fst (read_rangefinder cfg s env) in
        (Qabs (get (alt_cm_filt s') - get (alt_cm_filt s))
         <= (5 # 100) * Qabs (inject_Z (alt_cm s') - get (alt_cm_filt s)))%Q).
Proof.
  intros cfg.
  assert (Hgen : forall (F : FloatOps) (s : rangefinder_state_t) (env : Env),
        RANGEFINDER_ENABLED cfg = true ->
        alt_healthy (fst (read_rangefinder cfg s env)) = true ->
        Int.u32_sub (millis env) (last_healthy_ms s)
          <= Int.u32 (RANGEFINDER_TIMEOUT_MS cfg) ->
        get (alt_cm_filt (fst (read_rangefinder cfg s env)))
        = fadd (get (alt_cm_filt s))
            (fmul lit_0_05
               (fsub (float_of_int (alt_cm (fst (read_rangefinder cfg s env))))
                  (get (alt_cm_filt s))))).
  { intros F s env Hc Hh Ht.
    rewrite (cycle_state cfg s env Hc) in *. simpl in *.
    rewrite Hh, update_filter_blend by exact Ht. reflexivity. }
  split.
  - intros F s env Hc Hh Ht s'. apply Hgen; assumption.
  - intros s env Hc Hh Ht s'. unfold s'.
    rewrite (Hgen ExactQ s env Hc Hh Ht).
    cbn [fadd fsub fmul lit_0_05 float_of_int ExactQ].
    set (old := get (alt_cm_filt s)).
    set (x := inject_Z (alt_cm (fst (read_rangefinder cfg s env)))).
    assert (E : (old + (5 # 100) * (x - old) - old == (5 # 100) * (x - old))%Q)
      by ring.
    rewrite E, Qabs_Qmult. apply Qle_refl.
Qed.

(** A healthy sample of 300 cm, 20 ms after the last healthy one, over a
    filter at 250.0: the filter moves to 252.5, by 0.05 * 50. *)
Lemma C4_blend_within_timeout_witness :
  get (alt_cm_filt (fst (read_rangefinder cfg_example state_tracking
                           (env_level (rf_reading Good 10 95 300) 3020))))
  = S754_finite false 16547840 (-16)
  /\ (Qabs (get (alt_cm_filt (fst (read_rangefinder cfg_example state_tracking_Q
                           (env_level_Q (rf_reading Good 10 95 300) 3020))))
            - 250) <= (5 # 100) * Qabs (300 - 250))%Q.
Proof.
  split.
  - etransitivity.
    + apply (proj1 (C4_blend_within_timeout cfg_example) Binary32 state_tracking
               (env_level (rf_reading Good 10 95 300) 3020));
        vm_compute; congruence.
    + vm_compute. reflexivity.
  - apply (proj2 (C4_blend_within_timeout cfg_example) state_tracking_Q
             (env_level_Q (rf_reading Good 10 95 300) 3020));
      vm_compute; congruence.
Defined.

(** ** Validity gate *)

(** C6: [rangefinder_alt_ok] is the conjunction of [enabled], [alt_healthy]
    and [now - last_healthy_ms < RANGEFINDER_TIMEOUT_MS], the difference
    taken on [uint32_t]; it is false as soon as that difference reaches the
    timeout, whatever [alt_healthy] is.  While the clock has not wrapped
    past [last_healthy_ms], the difference is the plain one. *)
Theorem C6_alt_ok_gate :
  forall (F : FloatOps) (cfg : Config) (s : rangefinder_state_t) (now : Z),
    rangefinder_alt_ok cfg s now
    = enabled s && alt_healthy s
      && (Int.u32_sub now (last_healthy_ms s) <? Int.u32 (RANGEFINDER_TIMEOUT_MS cfg))
    /\ (Int.u32 (RANGEFINDER_TIMEOUT_MS cfg) <= Int.u32_sub now (last_healthy_ms s) ->
        rangefinder_alt_ok cfg s now = false)
    /\ (0 <= last_healthy_ms s <= now -> now < 2 ^ 32 ->
        0 <= RANGEFINDER_TIMEOUT_MS cfg < 2 ^ 32 ->
        rangefinder_alt_ok cfg s now
        = enabled s && alt_healthy s
          && (now - last_healthy_ms s <? RANGEFINDER_TIMEOUT_MS cfg)
        /\ (RANGEFINDER_TIMEOUT_MS cfg <= now - last_healthy_ms s ->
            rangefinder_alt_ok cfg s now = false)).
Proof.
  intros F cfg s now. split; [reflexivity |]. split.
  - intros H. unfold rangefinder_alt_ok.
    apply Z.ltb_ge in H. rewrite H. apply andb_false_r.
  - intros Hl Hn Ht. unfold rangefinder_alt_ok.
    rewrite (u32_sub_no_wrap now (last_healthy_ms s) Hl Hn).
    rewrite (u32_small (RANGEFINDER_TIMEOUT_MS cfg) Ht).
    split; [reflexivity |].
    intros H. apply Z.ltb_ge in H. rewrite H. apply andb_false_r.
Qed.

(** Healthy and enabled, last healthy at 3000 ms, asked at 4000 ms with a
    timeout of 1000 ms: not usable. *)
Lemma C6_alt_ok_gate_witness :
  rangefinder_alt_ok cfg_example state_tracking 4000 = false.
Proof.
  apply (C6_alt_ok_gate Binary32 cfg_example state_tracking 4000);
    simpl; lia.
Defined.

(** ** Publication *)

(** C8, as stated, fails under both readings of "disabled".  With the
    subsystem compiled in, [enabled] off and a driver that reports a good
    sample, the triple sent to the waypoint controller carries
    [healthy = true]; with the subsystem compiled out, nothing is sent. *)
Lemma C8_publish_counterexample :
  ~ (forall (cfg : Config) (s : @rangefinder_state_t Binary32) (env : Env),
        RANGEFINDER_ENABLED cfg = true ->
        enabled s = false ->
        exists offset_cm : float,
          In (wp_nav_set_rangefinder_terrain_offset false false offset_cm)
             (snd (read_rangefinder cfg s env))
          /\ In (circle_nav_set_rangefinder_terrain_offset false false offset_cm)
                (snd (read_rangefinder cfg s env)))
  /\ ~ (forall (cfg : Config) (s : @rangefinder_state_t Binary32) (env : Env),
        RANGEFINDER_ENABLED cfg = false ->
        exists offset_cm : float,
          In (wp_nav_set_rangefinder_terrain_offset false false offset_cm)
             (snd (read_rangefinder cfg s env))
          /\ In (circle_nav_set_rangefinder_terrain_offset false false offset_cm)
                (snd (read_rangefinder cfg s env))).
Proof.
  split; intros H.
  - destruct (H cfg_example state_disabled
                (env_level (rf_reading Good 10 95 500) 5000) eq_refl eq_refl)
      as [off [Hw _]].
    rewrite (cycle_calls cfg_example _ _ eq_refl) in Hw.
    destruct Hw as [Hw | [Hw | [Hw | []]]]; discriminate Hw.
  - destruct (H cfg_compiled_out state_disabled
                (env_level (rf_reading NoData 0 (-1) 0) 5000) eq_refl)
      as [off [[] _]].
Qed.

(** C8, amended: with the subsystem compiled in and [enabled] off,
    [read_rangefinder] is a total function that makes exactly three calls:
    the driver update, then the triple [(false, h, offset)] to the waypoint
    controller and the same triple to the circle controller, where [h] is
    the [alt_healthy] of the cycle and [offset] the vertical position minus
    the filter's value; [h] is false whenever the driver's status is not
    [Good].  With the subsystem compiled out it makes no call. *)
Theorem C8_publish_when_disabled :
  forall (F : FloatOps) (cfg : Config) (s : rangefinder_state_t) (env : Env),
    (RANGEFINDER_ENABLED cfg = true ->
     enabled s = false ->
     let s' := fst (read_rangefinder cfg s env) in
     let offset_cm := fsub (position_z_up_cm env) (get (alt_cm_filt s')) in
     snd (read_rangefinder cfg s env)
     = [ rangefinder_update;
         wp_nav_set_rangefinder_terrain_offset false (alt_healthy s') offset_cm;
         circle_nav_set_rangefinder_terrain_offset false (alt_healthy s') offset_cm ]
     /\ enabled s' = false
     /\ (status_orient (rangefinder env) <> Good -> alt_healthy s' = false))
    /\ (RANGEFINDER_ENABLED cfg = false -> snd (read_rangefinder cfg s env) = []).
Proof.
  intros F cfg s env. split.
  - intros Hc He s' off. unfold off, s'.
    rewrite (cycle_calls cfg s env Hc), He. simpl. split; [reflexivity |].
    rewrite (cycle_state cfg s env Hc). simpl. split; [exact He |].
    intros Hs. apply not_true_is_false. intros Ht.
    apply health_true_iff in Ht. tauto.
  - intros Hc. unfold read_rangefinder. rewrite Hc. reflexivity.
Qed.

(** Sensor absent and no data from the driver: [(false, false, -1000.0)]
    goes to both controllers. *)
Lemma C8_publish_when_disabled_witness :
  snd (read_rangefinder cfg_example state_disabled
         (env_level (rf_reading NoData 0 (-1) 0) 5000))
  = [ rangefinder_update;
      wp_nav_set_rangefinder_terrain_offset false false (B32.of_int (-1000));
      circle_nav_set_rangefinder_terrain_offset false false (B32.of_int (-1000)) ].
Proof.
  etransitivity.
  - apply (proj1 (C8_publish_when_disabled Binary32 cfg_example state_disabled
                    (env_level (rf_reading NoData 0 (-1) 0) 5000)) eq_refl eq_refl).
  - reflexivity.
Defined.

(** ** Tilt correction *)

(** *** In exact arithmetic *)

Lemma inject_Z_nonneg (z : Z) : 0 <= z -> (0 <= inject_Z z)%Q.
Proof. intros H. unfold Qle. simpl. lia. Qed.

Lemma ExQ_trunc_floor (q : Q) : (0 <= q)%Q -> ExQ.trunc q = Qfloor q.
Proof.
  destruct q as [n d]. unfold Qle, ExQ.trunc, Qfloor. simpl. intros H.
  apply Z.quot_div_nonneg; lia.
Qed.

Lemma ExQ_MAX (a b : Q) :
  @MAX ExactQ a b = if Qle_bool a b then b else a.
Proof. unfold MAX. simpl. unfold ExQ.gt. destruct (Qle_bool a b); reflexivity. Qed.

Lemma ExQ_MAX_bounds (a b : Q) :
  (a <= @MAX ExactQ a b)%Q /\ (b <= @MAX ExactQ a b)%Q
  /\ (a <= 1 -> b <= 1 -> @MAX ExactQ a b <= 1)%Q.
Proof.
  rewrite ExQ_MAX. destruct (Qle_bool a b) eqn:E.
  - apply Qle_bool_iff in E. repeat split; auto using Qle_refl.
  - assert (L : (b <= a)%Q).
    { destruct (Qlt_le_dec b a) as [L | L]; [apply Qlt_le_weak; exact L |].
      apply Qle_bool_iff in L. congruence. }
    repeat split; auto using Qle_refl.
Qed.

Lemma ExQ_MAX_mono (a b1 b2 : Q) :
  (b1 <= b2)%Q -> (@MAX ExactQ a b1 <= @MAX ExactQ a b2)%Q.
Proof.
  intros H. destruct (ExQ_MAX_bounds a b2) as [Ha [Hb _]].
  rewrite (ExQ_MAX a b1). destruct (Qle_bool a b1).
  - eapply Qle_trans; eassumption.
  - exact Ha.
Qed.

Lemma ExQ_correct_for_tilt (raw : Z) (z : Q) :
  0 <= raw < 2 ^ 15 -> (z <= 1)%Q ->
  @correct_for_tilt ExactQ raw z
  = Qfloor (inject_Z raw * @MAX ExactQ (707 # 1000) z)
  /\ 0 <= @correct_for_tilt ExactQ raw z <= raw.
Proof.
  intros Hr Hz.
  destruct (ExQ_MAX_bounds (707 # 1000) z) as [Ha [_ Hu]].
  assert (H1 : (@MAX ExactQ (707 # 1000) z <= 1)%Q)
    by (apply Hu; [discriminate | exact Hz]).
  assert (H0 : (0 <= @MAX ExactQ (707 # 1000) z)%Q)
    by (eapply Qle_trans; [| exact Ha]; discriminate).
  assert (Hraw : (0 <= inject_Z raw)%Q)
    by (apply inject_Z_nonneg; lia).
  set (M := @MAX ExactQ (707 # 1000) z) in *.
  assert (Hp : (0 <= inject_Z raw * M)%Q) by (apply Qmult_le_0_compat; assumption).
  assert (Hq : (inject_Z raw * M <= inject_Z raw)%Q).
  { setoid_replace (inject_Z raw) with (inject_Z raw * 1)%Q at 2 by ring.
    rewrite (Qmult_comm (inject_Z raw) M), (Qmult_comm (inject_Z raw) 1).
    apply Qmult_le_compat_r; assumption. }
  assert (Hf : 0 <= Qfloor (inject_Z raw * M) <= raw).
  { split.
    - rewrite <- (Qfloor_Z 0). apply Qfloor_resp_le. exact Hp.
    - rewrite <- (Qfloor_Z raw) at 2. apply Qfloor_resp_le. exact Hq. }
  assert (E : @correct_for_tilt ExactQ raw z = Qfloor (inject_Z raw * M)).
  { unfold correct_for_tilt. cbn [int16_of_float float_of_int fmul lit_0_707 ExactQ].
    fold M. unfold ExQ.to_int16. rewrite (ExQ_trunc_floor _ Hp).
    apply i16_small. unfold Int.in_i16. lia. }
  rewrite E. split; [reflexivity | exact Hf].
Qed.

(** The amended C5 in exact arithmetic: for a distance in [0, 32767] and
    [z1 <= z2 <= 1] the corrected value is the integer part of
    [raw * max(0.707, z)], it does not decrease from [z1] to [z2], it is at
    least the integer part of [0.707 * raw] and at most [raw]. *)
Lemma correct_for_tilt_exact (raw : Z) (z1 z2 : Q) :
  0 <= raw < 2 ^ 15 -> (z1 <= z2)%Q -> (z2 <= 1)%Q ->
  @correct_for_tilt ExactQ raw z1 <= @correct_for_tilt ExactQ raw z2
  /\ Qfloor ((707 # 1000) * inject_Z raw) <= @correct_for_tilt ExactQ raw z1
  /\ @correct_for_tilt ExactQ raw z1 <= raw.
Proof.
  intros Hr H12 H2.
  assert (H1 : (z1 <= 1)%Q) by (eapply Qle_trans; eassumption).
  destruct (ExQ_correct_for_tilt raw z1 Hr H1) as [E1 B1].
  destruct (ExQ_correct_for_tilt raw z2 Hr H2) as [E2 B2].
  assert (Hraw : (0 <= inject_Z raw)%Q)
    by (apply inject_Z_nonneg; lia).
  split; [| split].
  - rewrite E1, E2. apply Qfloor_resp_le.
    rewrite !(Qmult_comm (inject_Z raw)).
    apply Qmult_le_compat_r; [apply ExQ_MAX_mono; exact H12 | exact Hraw].
  - rewrite E1. apply Qfloor_resp_le.
    rewrite (Qmult_comm (inject_Z raw)).
    apply Qmult_le_compat_r; [| exact Hraw].
    apply (ExQ_MAX_bounds (707 # 1000) z1).
  - apply B1.
Qed.

(** *** In single precision *)

Lemma valid_normal (m : positive) (e : Z) :
  valid_binary 24 128 (S754_finite false m e) = true -> -149 < e ->
  Z.log2 (Zpos m) = 23.
Proof.
  unfold valid_binary, bounded, canonical_mantissa. intros H He.
  apply andb_true_iff in H. destruct H as [H _]. apply Z.eqb_eq in H.
  change (Zpos (digits2_pos m)) with (Zdigits2 (Zpos m)) in H.
  rewrite Zdigits2_log2 in H. unfold fexp, emin in H. lia.
Qed.

Lemma log2_23 (m : positive) : Z.log2 (Zpos m) = 23 -> 2 ^ 23 <= Zpos m < 2 ^ 24.
Proof.
  intros H. destruct (Z.log2_spec (Zpos m) eq_refl) as [L U].
  rewrite H in L, U. exact (conj L U).
Qed.

Lemma MAX_cases (z : spec_float) :
  valid_binary 24 128 z = true ->
  SFleb z (B32.of_int 1) = true ->
  (SFltb z B32.c_0_707 = true /\ @MAX Binary32 lit_0_707 z = B32.c_0_707)
  \/ (SFltb z B32.c_0_707 = false /\ @MAX Binary32 lit_0_707 z = z
      /\ ((exists m, z = S754_finite false m (-24) /\ 11861492 <= Zpos m < 2 ^ 24)
          \/ z = S754_finite false 8388608 (-23))).
Proof.
  intros Hv H1. unfold MAX. cbn [fgt lit_0_707 Binary32]. unfold B32.gt.
  destruct (SFltb z B32.c_0_707) eqn:E; [left; auto |].
  right. split; [reflexivity |]. split; [reflexivity |].
  change (B32.of_int 1) with (S754_finite false 8388608 (-23)) in H1.
  unfold B32.c_0_707 in E.
  destruct z as [s | s | | s m e]; try destruct s;
    try discriminate E; try discriminate H1.
  apply SFleb_pos in H1.
  assert (E' : ~ (e < -24 \/ (e = -24 /\ Zpos m < 11861492))).
  { intros C. apply SFltb_pos in C. congruence. }
  assert (Hl : Z.log2 (Zpos m) = 23) by (apply (valid_normal m e Hv); lia).
  apply log2_23 in Hl. change (2 ^ 23) with 8388608 in Hl.
  assert (C : e = -24 \/ e = -23) by lia.
  destruct C as [C | C]; subst e.
  - left. exists m. split; [reflexivity | lia].
  - right. f_equal. lia.
Qed.

Lemma frac24_MAX (z : spec_float) :
  valid_binary 24 128 z = true ->
  SFleb z (B32.of_int 1) = true ->
  11861492 <= frac24 (@MAX Binary32 lit_0_707 z) <= 2 ^ 24.
Proof.
  intros Hv H1.
  destruct (MAX_cases z Hv H1) as [[_ E] | [_ [E [[m [Ez B]] | Ez]]]]; rewrite E.
  - vm_compute. split; discriminate.
  - subst z. unfold frac24. change (-24 + 24) with 0. rewrite Z.pow_0_r. lia.
  - subst z. vm_compute. split; discriminate.
Qed.

Lemma frac24_MAX_mono (z1 z2 : spec_float) :
  valid_binary 24 128 z1 = true ->
  valid_binary 24 128 z2 = true ->
  SFleb z1 z2 = true ->
  SFleb z2 (B32.of_int 1) = true ->
  frac24 (@MAX Binary32 lit_0_707 z1) <= frac24 (@MAX Binary32 lit_0_707 z2).
Proof.
  intros V1 V2 H12 H2.
  assert (H1 : SFleb z1 (B32.of_int 1) = true)
    by (exact (SFleb_trans_pos z1 z2 _ _ H12 H2)).
  pose proof (frac24_MAX z2 V2 H2) as B2.
  destruct (MAX_cases z1 V1 H1) as [[L1 E1] | [L1 [E1 S1]]].
  - rewrite E1. change (frac24 B32.c_0_707) with 11861492. lia.
  - destruct (MAX_cases z2 V2 H2) as [[L2 E2] | [L2 [E2 S2]]].
    + pose proof (SFleb_SFltb_trans z1 z2 _ _ H12 L2) as C.
      unfold B32.c_0_707 in L1. congruence.
    + rewrite E1, E2.
      destruct S1 as [[m1 [Z1 B1]] | Z1]; destruct S2 as [[m2 [Z2 B2']] | Z2];
        subst z1 z2.
      * apply SFleb_pos in H12. unfold frac24.
        change (-24 + 24) with 0. rewrite Z.pow_0_r. lia.
      * unfold frac24. change (-24 + 24) with 0. change (-23 + 24) with 1.
        rewrite Z.pow_0_r. change (2 ^ 1) with 2. change (2 ^ 24) with 16777216 in B1. lia.
      * apply SFleb_pos in H12. lia.
      * lia.
Qed.

Lemma round24_nonneg (p : Z) : 0 <= p -> 23 <= Z.log2 p -> 0 <= round24 p.
Proof.
  intros Hp Hl. unfold round24.
  pose proof (rne_bounds p (Z.log2 p - 23) ltac:(lia)) as B.
  assert (0 <= p / 2 ^ (Z.log2 p - 23))
    by (apply Z.div_pos; [exact Hp | apply Z.pow_pos_nonneg; lia]).
  apply Z.mul_nonneg_nonneg; [lia | apply Z.pow_nonneg; lia].
Qed.

Section TiltModel.

Variable raw : Z.
Hypothesis raw_range : 1 <= raw < 2 ^ 15.

Let l := Z.log2 raw.
Let A := raw * 2 ^ (23 - l).

Lemma scaled_facts : 0 <= l <= 14 /\ 2 ^ 23 <= A < 2 ^ 24.
Proof. destruct (of_int_pos raw raw_range) as [_ H]. exact H. Qed.

Lemma product_log2 (m : Z) :
  2 ^ 23 <= m -> 23 <= Z.log2 (A * m) /\ 0 < A * m.
Proof.
  intros Hm. destruct scaled_facts as [_ HA].
  change (2 ^ 23) with 8388608 in *. change (2 ^ 24) with 16777216 in *.
  assert (P : 0 < A * m) by nia.
  split; [| exact P].
  apply Z.log2_le_pow2; [exact P |]. change (2 ^ 23) with 8388608. nia.
Qed.

Lemma tilt_model_mono (m1 m2 : Z) :
  2 ^ 23 <= m1 -> m1 <= m2 -> tilt_model raw m1 <= tilt_model raw m2.
Proof.
  intros H1 H12. unfold tilt_model. fold l. fold A.
  destruct scaled_facts as [Hl HA].
  destruct (product_log2 m1 H1) as [L P].
  apply Z.div_le_mono; [apply Z.pow_pos_nonneg; lia |].
  apply round24_mono; [exact P | exact L |].
  apply Z.mul_le_mono_nonneg_l; lia.
Qed.

Lemma tilt_model_nonneg (m : Z) : 2 ^ 23 <= m -> 0 <= tilt_model raw m.
Proof.
  intros Hm. unfold tilt_model. fold l. fold A.
  destruct scaled_facts as [Hl HA].
  destruct (product_log2 m Hm) as [L P].
  apply Z.div_pos; [| apply Z.pow_pos_nonneg; lia].
  apply round24_nonneg; lia.
Qed.

Lemma tilt_model_level : tilt_model raw (2 ^ 24) = raw.
Proof.
  unfold tilt_model. fold l. fold A.
  destruct scaled_facts as [Hl HA].
  rewrite round24_exact by lia.
  unfold A. rewrite <- Z.mul_assoc, <- Z.pow_add_r by lia.
  replace (23 - l + 24) with (47 - l) by lia.
  apply Z.div_mul. apply Z.pow_nonzero; lia.
Qed.

Lemma tilt_value (z : spec_float) :
  valid_binary 24 128 z = true ->
  SFleb z (B32.of_int 1) = true ->
  B32.trunc (SFmul 24 128 (B32.of_int raw) (@MAX Binary32 lit_0_707 z))
  = tilt_model raw (frac24 (@MAX Binary32 lit_0_707 z)).
Proof.
  intros Hv H1.
  destruct (of_int_pos raw raw_range) as [Ea _]. fold l in Ea. fold A in Ea.
  destruct scaled_facts as [Hl HA].
  rewrite Ea.
  assert (EA : Zpos (Z.to_pos A) = A) by (apply Z2Pos.id; lia).
  assert (Hc : exists mb, (@MAX Binary32 lit_0_707 z = S754_finite false mb (-24)
                           /\ 11861492 <= Zpos mb < 2 ^ 24)
                          \/ @MAX Binary32 lit_0_707 z = S754_finite false 8388608 (-23)).
  { destruct (MAX_cases z Hv H1) as [[_ E] | [_ [E [[m [Ez B]] | Ez]]]].
    - exists 11861492%positive. left. split; [exact E | ]. split; [lia | reflexivity].
    - exists m. left. split; [congruence | exact B].
    - exists 1%positive. right. congruence. }
  destruct Hc as [mb [[E B] | E]]; rewrite E.
  - assert (Hp : Zpos (Z.to_pos A * mb) = A * Zpos mb)
      by (rewrite Pos2Z.inj_mul, EA; reflexivity).
    destruct (product_log2 (Zpos mb) ltac:(change (2 ^ 23) with 8388608; lia)) as [_ P].
    assert (L1 : 46 <= Z.log2 (A * Zpos mb)).
    { apply Z.log2_le_pow2; [exact P |].
      change (2 ^ 46) with (8388608 * 8388608).
      change (2 ^ 23) with 8388608 in HA.
      apply Z.mul_le_mono_nonneg; lia. }
    assert (L2 : Z.log2 (A * Zpos mb) < 48).
    { apply Z.log2_lt_pow2; [exact P |].
      change (2 ^ 48) with (16777216 * 16777216).
      change (2 ^ 24) with 16777216 in *.
      apply Z.mul_lt_mono_nonneg; lia. }
    rewrite mul_trunc; rewrite ?Hp; try lia.
    unfold tilt_model, frac24. fold l. fold A.
    change (-24 + 24) with 0. rewrite Z.pow_0_r, Z.mul_1_r.
    f_equal. f_equal. lia.
  - assert (Hp : Zpos (Z.to_pos A * 8388608) = A * 2 ^ 23)
      by (rewrite Pos2Z.inj_mul, EA; reflexivity).
    assert (L : Z.log2 (A * 2 ^ 23) = 46).
    { apply Z.log2_unique; [lia |].
      change (2 ^ Z.succ 46) with (16777216 * 2 ^ 23).
      change (2 ^ 46) with (8388608 * 2 ^ 23).
      change (2 ^ 24) with 16777216 in HA. change (2 ^ 23) with 8388608 in *. lia. }
    rewrite mul_trunc; rewrite ?Hp, ?L; try lia.
    change (frac24 (S754_finite false 8388608 (-23))) with (2 ^ 24).
    rewrite tilt_model_level.
    rewrite round24_exact by lia.
    unfold A. rewrite <- Z.mul_assoc, <- Z.pow_add_r by lia.
    replace (- (l - 23 + -23)) with (23 - l + 23) by lia.
    apply Z.div_mul. apply Z.pow_nonzero; lia.
Qed.

End TiltModel.

Lemma correct_for_tilt_binary32 (raw : Z) (z : spec_float) :
  0 <= raw < 2 ^ 15 ->
  valid_binary 24 128 z = true ->
  SFleb z (B32.of_int 1) = true ->
  @correct_for_tilt Binary32 raw z
  = B32.trunc (SFmul 24 128 (B32.of_int raw) (@MAX Binary32 lit_0_707 z))
  /\ 0 <= @correct_for_tilt Binary32 raw z <= raw
  /\ (1 <= raw ->
      @correct_for_tilt Binary32 raw z
      = tilt_model raw (frac24 (@MAX Binary32 lit_0_707 z))).
Proof.
  intros Hr Hv H1.
  unfold correct_for_tilt.
  cbn [int16_of_float fmul float_of_int Binary32]. unfold B32.to_int16.
  destruct (Z.eq_dec raw 0) as [E0 | N0].
  - subst raw.
    assert (T : B32.trunc (SFmul B32.prec B32.emax (B32.of_int 0)
                             (@MAX Binary32 lit_0_707 z)) = 0).
    { destruct (MAX_cases z Hv H1) as [[_ E] | [_ [E [[m [Ez B]] | Ez]]]];
        rewrite E; try subst z; reflexivity. }
    unfold B32.prec, B32.emax in *. rewrite T.
    split; [reflexivity |]. split; [vm_compute; split; discriminate | lia].
  - assert (Hr1 : 1 <= raw < 2 ^ 15) by lia.
    pose proof (tilt_value raw Hr1 z Hv H1) as Tv.
    pose proof (frac24_MAX z Hv H1) as Fb.
    assert (Hf : 2 ^ 23 <= frac24 (@MAX Binary32 lit_0_707 z))
      by (change (2 ^ 23) with 8388608; lia).
    pose proof (tilt_model_nonneg raw Hr1 _ Hf) as T0.
    pose proof (tilt_model_mono raw Hr1 _ (2 ^ 24) Hf ltac:(lia)) as T1.
    rewrite (tilt_model_level raw Hr1) in T1.
    unfold B32.prec, B32.emax in *. rewrite Tv.
    rewrite i16_small by (unfold Int.in_i16; lia).
    split; [reflexivity |]. split; [lia | reflexivity].
Qed.

Lemma corrected_alt_tilt {F : FloatOps} (cfg : Config) (env : Env) :
  RANGEFINDER_TILT_CORRECTION cfg = true ->
  corrected_alt cfg env
  = correct_for_tilt (Int.i16 (distance_cm_orient (rangefinder env))) (ahrs_c_z env).
Proof. intros H. unfold corrected_alt. rewrite H. reflexivity. Qed.

(** C5, as stated, fails in two ways.  For a negative distance the corrected
    value decreases when the rotation component grows: -100 cm gives -75 at
    0.75 and -100 at 1.0.  And the stored value is an integer, cut toward
    zero: 1 cm at 0.75 gives 0, below 0.707 * 1. *)
Lemma C5_tilt_counterexample :
  ~ (forall (raw : Z) (z1 z2 : spec_float),
        Int.in_i16 raw ->
        valid_binary 24 128 z1 = true -> valid_binary 24 128 z2 = true ->
        SFleb z1 z2 = true -> SFleb z2 (B32.of_int 1) = true ->
        @correct_for_tilt Binary32 raw z1 <= @correct_for_tilt Binary32 raw z2)
  /\ ~ (forall (raw : Z) (z : spec_float),
        0 <= raw < 2 ^ 15 ->
        valid_binary 24 128 z = true -> SFleb z (B32.of_int 1) = true ->
        ((707 # 1000) * inject_Z raw
         <= inject_Z (@correct_for_tilt Binary32 raw z))%Q).
Proof.
  split; intros H.
  - assert (C : @correct_for_tilt Binary32 (-100) B32.c_0_75
                <= @correct_for_tilt Binary32 (-100) (B32.of_int 1)).
    { apply H; try reflexivity. unfold Int.in_i16. lia. }
    vm_compute in C. apply C. reflexivity.
  - assert (C : ((707 # 1000) * inject_Z 1
                 <= inject_Z (@correct_for_tilt Binary32 1 B32.c_0_75))%Q).
    { apply H; try reflexivity. lia. }
    vm_compute in C. apply C. reflexivity.
Qed.

(** C5, amended: for a distance in [0, 32767] and single-precision values
    [z1 <= z2 <= 1] of the rotation component, the tilt correction returns
    the single-precision product of the distance and [MAX(0.707f, z1)] cut
    toward zero to an integer; the result does not decrease from [z1] to
    [z2], is at least the result for the factor 0.707f and at most the
    distance.  It is what [read_rangefinder] stores in [alt_cm] when the
    tilt correction is compiled in. *)
Theorem C5_tilt_monotone_bounded :
  forall (raw : Z) (z1 z2 : spec_float),
    0 <= raw < 2 ^ 15 ->
    valid_binary 24 128 z1 = true ->
    valid_binary 24 128 z2 = true ->
    SFleb z1 z2 = true ->
    SFleb z2 (B32.of_int 1) = true ->
    @correct_for_tilt Binary32 raw z1
    = B32.trunc (SFmul 24 128 (B32.of_int raw) (@MAX Binary32 lit_0_707 z1))
    /\ @correct_for_tilt Binary32 raw z1 <= @correct_for_tilt Binary32 raw z2
    /\ @correct_for_tilt Binary32 raw B32.c_0_707 <= @correct_for_tilt Binary32 raw z1
    /\ @correct_for_tilt Binary32 raw z1 <= raw
    /\ forall (cfg : Config) (s : @rangefinder_state_t Binary32) (env : Env),
         RANGEFINDER_ENABLED cfg = true ->
         RANGEFINDER_TILT_CORRECTION cfg = true ->
         distance_cm_orient (rangefinder env) = raw ->
         ahrs_c_z env = z1 ->
         alt_cm (fst (read_rangefinder cfg s env)) = @correct_for_tilt Binary32 raw z1.
Proof.
  intros raw z1 z2 Hr V1 V2 H12 H2.
  assert (H1 : SFleb z1 (B32.of_int 1) = true)
    by (exact (SFleb_trans_pos z1 z2 _ _ H12 H2)).
  destruct (correct_for_tilt_binary32 raw z1 Hr V1 H1) as [E1 [B1 M1]].
  destruct (correct_for_tilt_binary32 raw z2 Hr V2 H2) as [E2 [B2 M2]].
  destruct (correct_for_tilt_binary32 raw B32.c_0_707 Hr eq_refl eq_refl)
    as [Ec [Bc Mc]].
  split; [exact E1 |].
  assert (Hlink : forall (cfg : Config) (s : @rangefinder_state_t Binary32) (env : Env),
         RANGEFINDER_ENABLED cfg = true ->
         RANGEFINDER_TILT_CORRECTION cfg = true ->
         distance_cm_orient (rangefinder env) = raw ->
         ahrs_c_z env = z1 ->
         alt_cm (fst (read_rangefinder cfg s env)) = @correct_for_tilt Binary32 raw z1).
  { intros cfg s env Hc Ht Hd Hz.
    rewrite (cycle_state cfg s env Hc). cbn [alt_cm].
    rewrite (corrected_alt_tilt cfg env Ht), Hd, Hz.
    rewrite i16_small by (unfold Int.in_i16; lia). reflexivity. }
  destruct (Z.eq_dec raw 0) as [E0 | N0]; [repeat split; try lia; exact Hlink |].
  assert (Hr1 : 1 <= raw < 2 ^ 15) by lia.
  pose proof (frac24_MAX z1 V1 H1) as F1.
  split; [| split; [| split; [lia | exact Hlink]]].
  - rewrite (M1 ltac:(lia)), (M2 ltac:(lia)).
    apply (tilt_model_mono raw Hr1).
    + change (2 ^ 23) with 8388608; lia.
    + apply frac24_MAX_mono; assumption.
  - rewrite (M1 ltac:(lia)), (Mc ltac:(lia)).
    apply (tilt_model_mono raw Hr1).
    + vm_compute. discriminate.
    + change (frac24 (@MAX Binary32 lit_0_707 B32.c_0_707)) with 11861492. lia.
Qed.

(** 1000 cm at 0.75 and level: 750 <= 1000, and 707 <= 750 <= 1000. *)
Lemma C5_tilt_monotone_bounded_witness :
  @correct_for_tilt Binary32 1000 B32.c_0_75
  <= @correct_for_tilt Binary32 1000 (B32.of_int 1)
  /\ @correct_for_tilt Binary32 1000 B32.c_0_707
     <= @correct_for_tilt Binary32 1000 B32.c_0_75
  /\ @correct_for_tilt Binary32 1000 B32.c_0_75 <= 1000.
Proof.
  pose proof (C5_tilt_monotone_bounded 1000 B32.c_0_75 (B32.of_int 1)
                ltac:(lia) eq_refl eq_refl eq_refl eq_refl) as H.
  destruct H as [_ [H1 [H2 [H3 _]]]].
  exact (conj H1 (conj H2 H3)).
Defined.

(** * Further properties *)

(** ** Runs of cycles *)

Lemma run_rangefinder_cons {F : FloatOps} (cfg : Config)
    (s : rangefinder_state_t) (env : Env) (envs : list Env) :
  run_rangefinder cfg s (env :: envs)
  = run_rangefinder cfg (fst (read_rangefinder cfg s env)) envs.
Proof. reflexivity. Qed.

Lemma run_rangefinder_app {F : FloatOps} (cfg : Config)
    (s : rangefinder_state_t) (envs1 envs2 : list Env) :
  run_rangefinder cfg s (envs1 ++ envs2)
  = run_rangefinder cfg (run_rangefinder cfg s envs1) envs2.
Proof. unfold run_rangefinder. apply fold_left_app. Qed.

Lemma cycle_enabled {F : FloatOps} (cfg : Config)
    (s : rangefinder_state_t) (env : Env) :
  enabled (fst (read_rangefinder cfg s env))
  = RANGEFINDER_ENABLED cfg && enabled s.
Proof.
  destruct (RANGEFINDER_ENABLED cfg) eqn:Hc.
  - rewrite (cycle_state cfg s env Hc). reflexivity.
  - unfold read_rangefinder. rewrite Hc. reflexivity.
Qed.

Lemma cycle_last_healthy {F : FloatOps} (cfg : Config)
    (s : rangefinder_state_t) (env : Env) :
  last_healthy_ms (fst (read_rangefinder cfg s env))
  = if alt_healthy (fst (read_rangefinder cfg s env))
    then millis env else last_healthy_ms s.
Proof.
  destruct (RANGEFINDER_ENABLED cfg) eqn:Hc.
  - rewrite (cycle_state cfg s env Hc). cbn [last_healthy_ms alt_healthy].
    unfold update_filter. destruct (health cfg (rangefinder env)); reflexivity.
  - unfold read_rangefinder. rewrite Hc. reflexivity.
Qed.

Lemma cycle_filter {F : FloatOps} (cfg : Config)
    (s : rangefinder_state_t) (env : Env) :
  alt_cm_filt (fst (read_rangefinder cfg s env))
  = if alt_healthy (fst (read_rangefinder cfg s env))
    then if Int.u32 (RANGEFINDER_TIMEOUT_MS cfg)
              <? Int.u32_sub (millis env) (last_healthy_ms s)
         then reset (alt_cm_filt s) (float_of_int (corrected_alt cfg env))
         else apply (alt_cm_filt s) (float_of_int (corrected_alt cfg env)) lit_0_05
    else alt_cm_filt s.
Proof.
  destruct (RANGEFINDER_ENABLED cfg) eqn:Hc.
  - rewrite (cycle_state cfg s env Hc). cbn [alt_cm_filt alt_healthy].
    unfold update_filter. destruct (health cfg (rangefinder env)); reflexivity.
  - unfold read_rangefinder. rewrite Hc. reflexivity.
Qed.

Lemma cycle_alt_healthy {F : FloatOps} (cfg : Config)
    (s : rangefinder_state_t) (env : Env) :
  alt_healthy (fst (read_rangefinder cfg s env))
  = RANGEFINDER_ENABLED cfg && health cfg (rangefinder env).
Proof.
  destruct (RANGEFINDER_ENABLED cfg) eqn:Hc.
  - rewrite (cycle_state cfg s env Hc). reflexivity.
  - unfold read_rangefinder. rewrite Hc. reflexivity.
Qed.

Lemma run_enabled {F : FloatOps} (cfg : Config)
    (s : rangefinder_state_t) (envs : list Env) :
  RANGEFINDER_ENABLED cfg = true ->
  enabled (run_rangefinder cfg s envs) = enabled s.
Proof.
  intros Hc. revert s. induction envs as [| env rest IH]; intros s.
  - reflexivity.
  - rewrite run_rangefinder_cons, IH, cycle_enabled, Hc. reflexivity.
Qed.

(** With the subsystem compiled in, [enabled] is written by
    [init_rangefinder] only: after the initialisation and any number of
    cycles it is what the driver answered to [has_orientation], whatever
    the cycles read. *)
Theorem enabled_set_once_at_init :
  forall (F : FloatOps) (cfg : Config) (s : rangefinder_state_t)
         (rf : RangeFinder) (hz : float) (envs : list Env),
    RANGEFINDER_ENABLED cfg = true ->
    enabled (run_rangefinder cfg (init_rangefinder cfg s rf hz) envs)
    = has_orientation rf.
Proof.
  intros F cfg s rf hz envs Hc.
  rewrite (run_enabled cfg _ envs Hc). unfold init_rangefinder.
  rewrite Hc. reflexivity.
Qed.

Lemma enabled_set_once_at_init_witness :
  enabled (run_rangefinder cfg_example
             (init_rangefinder cfg_example state_disabled
                (rf_reading NoData 0 (-1) 0) (S754_zero false))
             [env_level (rf_reading Good 10 95 500) 20;
              env_level (rf_reading NoData 0 (-1) 0) 40])
  = true.
Proof.
  apply (enabled_set_once_at_init Binary32 cfg_example state_disabled
           (rf_reading NoData 0 (-1) 0) (S754_zero false)).
  reflexivity.
Defined.

(** A sensor without the orientation never opens the gate: after the
    initialisation with [has_orientation] false and any run of cycles,
    [rangefinder_alt_ok] is false at every clock value and both controllers
    are told [enabled = false], whatever the driver reports.  The same holds
    after at least one cycle when the subsystem is compiled out. *)
Theorem no_orientation_gate_closed :
  forall (F : FloatOps) (cfg : Config) (s : rangefinder_state_t)
         (rf : RangeFinder) (hz : float) (envs : list Env)
         (env : Env) (t : Z),
    (RANGEFINDER_ENABLED cfg = true -> has_orientation rf = false ->
     let s1 := run_rangefinder cfg (init_rangefinder cfg s rf hz) envs in
     rangefinder_alt_ok cfg s1 t = false
     /\ forall (e h : bool) (off : float),
          (In (wp_nav_set_rangefinder_terrain_offset e h off)
              (snd (read_rangefinder cfg s1 env))
           \/ In (circle_nav_set_rangefinder_terrain_offset e h off)
                 (snd (read_rangefinder cfg s1 env))) ->
          e = false)
    /\ (RANGEFINDER_ENABLED cfg = false ->
        rangefinder_alt_ok cfg (run_rangefinder cfg s (envs ++ [env])) t = false).
Proof.
  intros F cfg s rf hz envs env t. split.
  - intros Hc Ho s1.
    assert (He : enabled s1 = false).
    { unfold s1. rewrite (run_enabled cfg _ envs Hc). unfold init_rangefinder.
      rewrite Hc. exact Ho. }
    split.
    + unfold rangefinder_alt_ok. rewrite He. reflexivity.
    + intros e h off Hin. rewrite (cycle_calls cfg s1 env Hc), He in Hin.
      destruct Hin as [[H | [H | [H | []]]] | [H | [H | [H | []]]]];
        try discriminate H; injection H as H _ _; symmetry; exact H.
  - intros Hc. rewrite run_rangefinder_app. cbn [run_rangefinder fold_left].
    unfold rangefinder_alt_ok. rewrite cycle_enabled, Hc. reflexivity.
Qed.

Lemma no_orientation_gate_closed_witness :
  rangefinder_alt_ok cfg_example
    (run_rangefinder cfg_example
       (init_rangefinder cfg_example state_tracking
          {| has_orientation := false; status_orient := Good;
             range_valid_count_orient := 10; signal_quality_pct := 95;
             distance_cm_orient := 500;
             min_distance_cm_orient := 20; max_distance_cm_orient := 700 |}
          (S754_zero false))
       [env_level (rf_reading Good 10 95 500) 3020]) 3030
  = false.
Proof.
  exact (proj1 (proj1 (no_orientation_gate_closed Binary32 cfg_example state_tracking
           {| has_orientation := false; status_orient := Good;
              range_valid_count_orient := 10; signal_quality_pct := 95;
              distance_cm_orient := 500;
              min_distance_cm_orient := 20; max_distance_cm_orient := 700 |}
           (S754_zero false)
           [env_level (rf_reading Good 10 95 500) 3020]
           (env_level (rf_reading Good 10 95 500) 3040) 3030)
         eq_refl eq_refl)).
Defined.

Lemma clock_monotone_weaken {F : FloatOps} (t0 t1 : Z) (envs : list Env) :
  t1 <= t0 -> clock_monotone t0 envs -> clock_monotone t1 envs.
Proof.
  intros H. destruct envs as [| env rest]; simpl; [auto |].
  intros [H0 Hr]. split; [lia | exact Hr].
Qed.

(** With a clock that never goes back, [last_healthy_ms] never goes back
    either and never runs ahead of the clock: after a run it lies between
    its earlier value and the run's latest clock value. *)
Theorem last_healthy_ms_monotone :
  forall (F : FloatOps) (cfg : Config) (s : rangefinder_state_t)
         (envs : list Env) (t_end : Z),
    clock_monotone (last_healthy_ms s) envs ->
    (forall env, In env envs -> millis env <= t_end) ->
    last_healthy_ms s <= t_end ->
    last_healthy_ms s <= last_healthy_ms (run_rangefinder cfg s envs) <= t_end.
Proof.
  intros F cfg s envs t_end. revert s.
  induction envs as [| env rest IH]; intros s Hm Hb H0.
  - simpl. lia.
  - rewrite run_rangefinder_cons. destruct Hm as [H1 Hr].
    set (s1 := fst (read_rangefinder cfg s env)).
    assert (B : last_healthy_ms s <= last_healthy_ms s1 <= millis env).
    { unfold s1. rewrite cycle_last_healthy.
      destruct (alt_healthy (fst (read_rangefinder cfg s env))); lia. }
    assert (Ht : millis env <= t_end) by (apply Hb; left; reflexivity).
    assert (IH' : last_healthy_ms s1
                  <= last_healthy_ms (run_rangefinder cfg s1 rest) <= t_end).
    { apply IH.
      - apply (clock_monotone_weaken (millis env)); [lia | exact Hr].
      - intros e He. apply Hb. right. exact He.
      - lia. }
    lia.
Qed.

Lemma last_healthy_ms_monotone_witness :
  3000 <= last_healthy_ms
            (run_rangefinder cfg_example state_tracking
               [env_level (rf_reading Good 10 50 500) 3020;
                env_level (rf_reading Good 10 95 500) 3040;
                env_level (rf_reading NoData 0 (-1) 0) 3060]) <= 3060.
Proof.
  apply (last_healthy_ms_monotone Binary32 cfg_example state_tracking
           [env_level (rf_reading Good 10 50 500) 3020;
            env_level (rf_reading Good 10 95 500) 3040;
            env_level (rf_reading NoData 0 (-1) 0) 3060] 3060).
  - simpl. lia.
  - intros env [H | [H | [H | []]]]; subst env; simpl; lia.
  - simpl. lia.
Defined.

Lemma run_unhealthy {F : FloatOps} (cfg : Config)
    (s : rangefinder_state_t) (envs : list Env) :
  (forall env, In env envs -> health cfg (rangefinder env) = false) ->
  alt_cm_filt (run_rangefinder cfg s envs) = alt_cm_filt s
  /\ last_healthy_ms (run_rangefinder cfg s envs) = last_healthy_ms s.
Proof.
  revert s. induction envs as [| env rest IH]; intros s Hu.
  - split; reflexivity.
  - rewrite run_rangefinder_cons.
    destruct (IH (fst (read_rangefinder cfg s env))
                (fun e He => Hu e (or_intror He))) as [If Il].
    rewrite If, Il, cycle_filter, cycle_last_healthy, cycle_alt_healthy.
    rewrite (Hu env (or_introl eq_refl)), andb_false_r. split; reflexivity.
Qed.

(** However long the driver stays unhealthy, the filter and
    [last_healthy_ms] are frozen: a run in which no report passes the
    health evaluation leaves both as they were, and a further unhealthy
    cycle still sends the waypoint controller the vertical position minus
    the value the filter had before the run, flagged unhealthy. *)
Theorem unhealthy_run_frozen :
  forall (F : FloatOps) (cfg : Config) (s : rangefinder_state_t)
         (envs : list Env),
    (forall env, In env envs -> health cfg (rangefinder env) = false) ->
    alt_cm_filt (run_rangefinder cfg s envs) = alt_cm_filt s
    /\ last_healthy_ms (run_rangefinder cfg s envs) = last_healthy_ms s
    /\ forall env : Env,
         RANGEFINDER_ENABLED cfg = true ->
         health cfg (rangefinder env) = false ->
         In (wp_nav_set_rangefinder_terrain_offset (enabled s) false
               (fsub (position_z_up_cm env) (get (alt_cm_filt s))))
            (snd (read_rangefinder cfg (run_rangefinder cfg s envs) env)).
Proof.
  intros F cfg s envs Hu.
  destruct (run_unhealthy cfg s envs Hu) as [Ef El].
  split; [exact Ef |]. split; [exact El |].
  intros env Hc Hh.
  rewrite (cycle_calls cfg _ env Hc), cycle_filter, cycle_alt_healthy.
  rewrite Hc, Hh, Ef, (run_enabled cfg s envs Hc).
  right. left. reflexivity.
Qed.

Lemma unhealthy_run_frozen_witness :
  alt_cm_filt (run_rangefinder cfg_example state_tracking
                 [env_level (rf_reading Good 10 50 500) 3020;
                  env_level (rf_reading NoData 0 (-1) 0) 9000])
  = alt_cm_filt state_tracking
  /\ last_healthy_ms (run_rangefinder cfg_example state_tracking
                 [env_level (rf_reading Good 10 50 500) 3020;
                  env_level (rf_reading NoData 0 (-1) 0) 9000])
     = 3000.
Proof.
  assert (Hu : forall env,
             In env [env_level (rf_reading Good 10 50 500) 3020;
                     env_level (rf_reading NoData 0 (-1) 0) 9000] ->
             health cfg_example (rangefinder env) = false)
    by (intros env [H | [H | []]]; subst env; reflexivity).
  destruct (unhealthy_run_frozen Binary32 cfg_example state_tracking _ Hu)
    as [Hf [Hl _]].
  exact (conj Hf Hl).
Defined.

(** Recovery after a dropout: when no cycle of a run was healthy and the
    next cycle is healthy with a clock more than [RANGEFINDER_TIMEOUT_MS]
    past the stamp from before the run, that cycle restarts the filter at
    its own sample and the controllers receive, in the same call, the
    vertical position minus that sample. *)
Theorem dropout_then_reset :
  forall (F : FloatOps) (cfg : Config) (s : rangefinder_state_t)
         (gap : list Env) (env : Env),
    RANGEFINDER_ENABLED cfg = true ->
    (forall e, In e gap -> health cfg (rangefinder e) = false) ->
    health cfg (rangefinder env) = true ->
    Int.u32 (RANGEFINDER_TIMEOUT_MS cfg)
      < Int.u32_sub (millis env) (last_healthy_ms s) ->
    let s0 := run_rangefinder cfg s gap in
    let sample := float_of_int (corrected_alt cfg env) in
    get (alt_cm_filt (fst (read_rangefinder cfg s0 env))) = sample
    /\ last_healthy_ms (fst (read_rangefinder cfg s0 env)) = millis env
    /\ In (wp_nav_set_rangefinder_terrain_offset (enabled s) true
             (fsub (position_z_up_cm env) sample))
          (snd (read_rangefinder cfg s0 env)).
Proof.
  intros F cfg s gap env Hc Hu Hh Ht s0 sample.
  destruct (run_unhealthy cfg s gap Hu) as [Ef El]. fold s0 in Ef, El.
  assert (Ha : alt_healthy (fst (read_rangefinder cfg s0 env)) = true)
    by (rewrite cycle_alt_healthy, Hc, Hh; reflexivity).
  assert (Eg : get (alt_cm_filt (fst (read_rangefinder cfg s0 env))) = sample).
  { rewrite cycle_filter, Ha, El.
    apply Z.ltb_lt in Ht. rewrite Ht. reflexivity. }
  split; [exact Eg |]. split.
  - rewrite cycle_last_healthy, Ha. reflexivity.
  - rewrite (cycle_calls cfg s0 env Hc), Ha, Eg.
    unfold s0. rewrite (run_enabled cfg s gap Hc).
    right. left. reflexivity.
Qed.

Lemma dropout_then_reset_witness :
  get (alt_cm_filt
         (fst (read_rangefinder cfg_example
                 (run_rangefinder cfg_example state_tracking
                    [env_level (rf_reading NoData 0 (-1) 0) 3500;
                     env_level (rf_reading Good 3 95 400) 4000])
                 (env_level (rf_reading Good 10 95 400) 4500))))
  = B32.of_int 400.
Proof.
  apply (dropout_then_reset Binary32 cfg_example state_tracking
           [env_level (rf_reading NoData 0 (-1) 0) 3500;
            env_level (rf_reading Good 3 95 400) 4000]
           (env_level (rf_reading Good 10 95 400) 4500)).
  - reflexivity.
  - intros e [H | [H | []]]; subst e; reflexivity.
  - reflexivity.
  - vm_compute. reflexivity.
Defined.

(** ** The gate and the filter agree on time *)

Lemma u32_sub_wrap (last d : Z) :
  Int.in_u32 last -> 0 <= d < 2 ^ 32 ->
  Int.u32_sub (Int.u32 (last + d)) last = d.
Proof.
  unfold Int.in_u32, Int.u32_sub, Int.u32. intros Hl Hd.
  rewrite Zminus_mod_idemp_l.
  replace (last + d - last) with d by lia.
  apply Z.mod_small. exact Hd.
Qed.

(** After a cycle the gate no longer depends on the history: at every clock
    value [t] it is open exactly when the sensor is enabled, the cycle was
    healthy and [t] is less than [RANGEFINDER_TIMEOUT_MS] past the clock of
    that cycle.  So an unhealthy cycle closes the gate at once, and at the
    cycle's own clock value the gate agrees with the flags sent to the
    waypoint controller unless the timeout is zero. *)
Theorem gate_after_cycle :
  forall (F : FloatOps) (cfg : Config) (s : rangefinder_state_t)
         (env : Env) (t : Z),
    RANGEFINDER_ENABLED cfg = true ->
    rangefinder_alt_ok cfg (fst (read_rangefinder cfg s env)) t
    = enabled s && health cfg (rangefinder env)
      && (Int.u32_sub t (millis env) <? Int.u32 (RANGEFINDER_TIMEOUT_MS cfg))
    /\ (0 < Int.u32 (RANGEFINDER_TIMEOUT_MS cfg) ->
        forall (e h : bool) (off : float),
          In (wp_nav_set_rangefinder_terrain_offset e h off)
             (snd (read_rangefinder cfg s env)) ->
          rangefinder_alt_ok cfg (fst (read_rangefinder cfg s env)) (millis env)
          = e && h).
Proof.
  intros F cfg s env t Hc.
  assert (G : forall t0,
             rangefinder_alt_ok cfg (fst (read_rangefinder cfg s env)) t0
             = enabled s && health cfg (rangefinder env)
               && (Int.u32_sub t0 (millis env)
                   <? Int.u32 (RANGEFINDER_TIMEOUT_MS cfg))).
  { intros t0. unfold rangefinder_alt_ok.
    rewrite cycle_last_healthy, cycle_enabled, cycle_alt_healthy, Hc.
    cbn [andb]. destruct (health cfg (rangefinder env)); [reflexivity |].
    rewrite !andb_false_r. reflexivity. }
  split; [apply G |].
  intros Ht e h off Hin. rewrite G.
  rewrite (cycle_calls cfg s env Hc), cycle_alt_healthy, Hc in Hin.
  destruct Hin as [H | [H | [H | []]]]; try discriminate H.
  injection H as He Hh _. subst e h.
  unfold Int.u32_sub. rewrite Z.sub_diag.
  change (Int.u32 0) with 0.
  apply Z.ltb_lt in Ht. rewrite Ht. apply andb_true_r.
Qed.

Lemma gate_after_cycle_witness :
  rangefinder_alt_ok cfg_example
    (fst (read_rangefinder cfg_example state_tracking
            (env_level (rf_reading Good 10 50 500) 3020))) 3021
  = false.
Proof.
  etransitivity.
  - apply (proj1 (gate_after_cycle Binary32 cfg_example state_tracking
                    (env_level (rf_reading Good 10 50 500) 3020) 3021 eq_refl)).
  - reflexivity.
Defined.

(** The filter never restarts while the gate is open: if
    [rangefinder_alt_ok] holds at the clock value of a healthy cycle, that
    cycle blends.  The two tests differ at one instant: with exactly
    [RANGEFINDER_TIMEOUT_MS] elapsed the gate is already closed and a
    healthy cycle still blends. *)
Theorem open_gate_means_blend :
  forall (F : FloatOps) (cfg : Config) (s : rangefinder_state_t) (env : Env),
    RANGEFINDER_ENABLED cfg = true ->
    health cfg (rangefinder env) = true ->
    let blended :=
      apply (alt_cm_filt s) (float_of_int (corrected_alt cfg env)) lit_0_05 in
    (rangefinder_alt_ok cfg s (millis env) = true ->
       alt_cm_filt (fst (read_rangefinder cfg s env)) = blended)
    /\ (Int.u32_sub (millis env) (last_healthy_ms s)
        = Int.u32 (RANGEFINDER_TIMEOUT_MS cfg) ->
       rangefinder_alt_ok cfg s (millis env) = false
       /\ alt_cm_filt (fst (read_rangefinder cfg s env)) = blended).
Proof.
  intros F cfg s env Hc Hh blended. unfold blended.
  rewrite cycle_filter, cycle_alt_healthy, Hc, Hh. cbn [andb].
  split.
  - unfold rangefinder_alt_ok. intros H.
    apply andb_true_iff in H. destruct H as [_ H]. apply Z.ltb_lt in H.
    replace (Int.u32 (RANGEFINDER_TIMEOUT_MS cfg)
             <? Int.u32_sub (millis env) (last_healthy_ms s)) with false
      by (symmetry; apply Z.ltb_ge; lia).
    reflexivity.
  - intros E. unfold rangefinder_alt_ok. rewrite E, !Z.ltb_irrefl.
    split; [apply andb_false_r | reflexivity].
Qed.

Lemma open_gate_means_blend_witness :
  alt_cm_filt (fst (read_rangefinder cfg_example state_tracking
                      (env_level (rf_reading Good 10 95 300) 3020)))
  = apply (alt_cm_filt state_tracking) (B32.of_int 300) B32.c_0_05.
Proof.
  exact (proj1 (open_gate_means_blend Binary32 cfg_example state_tracking
                  (env_level (rf_reading Good 10 95 300) 3020) eq_refl eq_refl)
           eq_refl).
Defined.

(** The elapsed time is measured correctly across a wrap of the 32-bit
    clock: [d] milliseconds after [last_healthy_ms], with [d] below 2^32
    and the clock taken modulo 2^32, the gate compares [d] itself with the
    timeout, and it is open at an earlier instant whenever it is open at a
    later one. *)
Theorem gate_across_clock_wrap :
  forall (F : FloatOps) (cfg : Config) (s : rangefinder_state_t) (d : Z),
    Int.in_u32 (last_healthy_ms s) ->
    0 <= d < 2 ^ 32 ->
    rangefinder_alt_ok cfg s (Int.u32 (last_healthy_ms s + d))
    = enabled s && alt_healthy s && (d <? Int.u32 (RANGEFINDER_TIMEOUT_MS cfg))
    /\ forall d0 : Z,
         0 <= d0 <= d ->
         rangefinder_alt_ok cfg s (Int.u32 (last_healthy_ms s + d)) = true ->
         rangefinder_alt_ok cfg s (Int.u32 (last_healthy_ms s + d0)) = true.
Proof.
  intros F cfg s d Hl Hd. unfold rangefinder_alt_ok.
  rewrite (u32_sub_wrap _ d Hl Hd). split; [reflexivity |].
  intros d0 Hd0. rewrite (u32_sub_wrap _ d0 Hl ltac:(lia)).
  rewrite !andb_true_iff, !Z.ltb_lt. intros [He H]. split; [exact He | lia].
Qed.

(** 100 ms before the clock wraps and 150 ms later (at clock value 50):
    the gate is open. *)
Lemma gate_across_clock_wrap_witness :
  rangefinder_alt_ok cfg_example
    {| enabled := true; alt_healthy := true; alt_cm := 250;
       min_cm := 20; max_cm := 700; last_healthy_ms := 2 ^ 32 - 100;
       alt_cm_filt := filt_zero |} 50
  = true.
Proof.
  etransitivity.
  - apply (gate_across_clock_wrap Binary32 cfg_example
             {| enabled := true; alt_healthy := true; alt_cm := 250;
                min_cm := 20; max_cm := 700; last_healthy_ms := 2 ^ 32 - 100;
                alt_cm_filt := filt_zero |} 150).
    + unfold Int.in_u32. simpl. lia.
    + lia.
  - reflexivity.
Defined.

(** The reset decision measures the same elapsed time: on a healthy cycle
    [d] milliseconds after [last_healthy_ms] (clock modulo 2^32, [d] below
    2^32) the filter restarts exactly when [d] exceeds the timeout, also
    when the clock has wrapped in between. *)
Theorem reset_across_clock_wrap :
  forall (F : FloatOps) (cfg : Config) (s : rangefinder_state_t)
         (env : Env) (d : Z),
    RANGEFINDER_ENABLED cfg = true ->
    health cfg (rangefinder env) = true ->
    Int.in_u32 (last_healthy_ms s) ->
    0 <= d < 2 ^ 32 ->
    millis env = Int.u32 (last_healthy_ms s + d) ->
    let sample := float_of_int (corrected_alt cfg env) in
    alt_cm_filt (fst (read_rangefinder cfg s env))
    = if Int.u32 (RANGEFINDER_TIMEOUT_MS cfg) <? d
      then reset (alt_cm_filt s) sample
      else apply (alt_cm_filt s) sample lit_0_05.
Proof.
  intros F cfg s env d Hc Hh Hl Hd Hm sample.
  rewrite cycle_filter, cycle_alt_healthy, Hc, Hh, Hm.
  rewrite (u32_sub_wrap _ d Hl Hd). reflexivity.
Qed.

Lemma reset_across_clock_wrap_witness :
  alt_cm_filt
    (fst (read_rangefinder cfg_example
            {| enabled := true; alt_healthy := true; alt_cm := 250;
               min_cm := 20; max_cm := 700; last_healthy_ms := 2 ^ 32 - 100;
               alt_cm_filt := filt_zero |}
            (env_level (rf_reading Good 10 95 300) 1900)))
  = reset filt_zero (B32.of_int 300).
Proof.
  etransitivity.
  - apply (reset_across_clock_wrap Binary32 cfg_example
             {| enabled := true; alt_healthy := true; alt_cm := 250;
                min_cm := 20; max_cm := 700; last_healthy_ms := 2 ^ 32 - 100;
                alt_cm_filt := filt_zero |}
             (env_level (rf_reading Good 10 95 300) 1900) 2000 eq_refl eq_refl).
    + unfold Int.in_u32. simpl. lia.
    + lia.
    + reflexivity.
  - reflexivity.
Defined.



(** ** What the controllers are told *)

(** In every cycle with the subsystem compiled in, the circle controller
    gets the same health flag and the same offset as the waypoint
    controller, and it is told [enabled] only if the waypoint controller is
    told so too and reports that it uses the rangefinder. *)
Theorem circle_follows_waypoint :
  forall (F : FloatOps) (cfg : Config) (s : rangefinder_state_t) (env : Env)
         (e h : bool) (off : float),
    RANGEFINDER_ENABLED cfg = true ->
    In (circle_nav_set_rangefinder_terrain_offset e h off)
       (snd (read_rangefinder cfg s env)) ->
    exists e_wp : bool,
      In (wp_nav_set_rangefinder_terrain_offset e_wp h off)
         (snd (read_rangefinder cfg s env))
      /\ e = e_wp && wp_nav_rangefinder_used env
      /\ h = alt_healthy (fst (read_rangefinder cfg s env))
      /\ off = fsub (position_z_up_cm env)
                 (get (alt_cm_filt (fst (read_rangefinder cfg s env)))).
Proof.
  intros F cfg s env e h off Hc Hin.
  rewrite (cycle_calls cfg s env Hc) in *.
  destruct Hin as [H | [H | [H | []]]]; try discriminate H.
  injection H as He Hh Ho. exists (enabled s).
  subst e h off. split; [right; left; reflexivity | auto].
Qed.

Lemma circle_follows_waypoint_witness :
  exists e_wp : bool,
    In (wp_nav_set_rangefinder_terrain_offset e_wp false (B32.of_int (-1000)))
       (snd (read_rangefinder cfg_example state_disabled
               (env_level (rf_reading NoData 0 (-1) 0) 5000)))
    /\ false = e_wp && true.
Proof.
  destruct (circle_follows_waypoint Binary32 cfg_example state_disabled
              (env_level (rf_reading NoData 0 (-1) 0) 5000)
              false false (B32.of_int (-1000)) eq_refl
              (or_intror (or_intror (or_introl eq_refl))))
    as [e_wp [H1 [H2 _]]].
  exists e_wp. split; [exact H1 | exact H2].
Defined.

(** ** Tilt correction in single precision: level, floor and accuracy *)

(** A 24-bit mantissa followed by [k] zero bits rounds to itself. *)
Lemma binary_round_aux_scaled (sx : bool) (m p : positive) (k e : Z) :
  Z.log2 (Zpos m) = 23 -> 1 <= k -> -149 <= e <= 104 ->
  Zpos p = Zpos m * 2 ^ k ->
  binary_round_aux 24 128 sx (Zpos p) (e - k) loc_Exact = S754_finite sx m e.
Proof.
  intros Hm Hk He Hp.
  assert (Hl : Z.log2 (Zpos p) = 23 + k).
  { rewrite Hp, Z.log2_mul_pow2 by lia. lia. }
  assert (HK : 0 < 2 ^ k) by (apply Z.pow_pos_nonneg; lia).
  assert (Hr : rne (Zpos p) k = Zpos m).
  { unfold rne. rewrite Hp, Z.div_mul, Z.mod_mul by lia.
    replace (2 * 0 <? 2 ^ k) with true by (symmetry; apply Z.ltb_lt; lia).
    reflexivity. }
  unfold binary_round_aux, shr_fexp.
  rewrite Zdigits2_log2, Hl.
  replace (fexp 24 128 (23 + k + 1 + (e - k)) - (e - k)) with k
    by (unfold fexp, emin; lia).
  cbn [shr_record_of_loc].
  destruct k as [| pk | pk] eqn:Ek; [lia | | lia].
  cbn [shr]. rewrite iter_shr_1 by lia. rewrite rne_shifted by lia.
  rewrite Hr, Zdigits2_log2, Hm.
  replace (fexp 24 128 (23 + 1 + (e - Zpos pk + Zpos pk)) - (e - Zpos pk + Zpos pk))
    with 0 by (unfold fexp, emin; lia).
  cbn [shr shr_m].
  replace (e - Zpos pk + Zpos pk) with e by lia.
  replace (e <=? 128 - 24) with true by (symmetry; apply Z.leb_le; lia).
  reflexivity.
Qed.

(** Multiplying a normal float by 1.0 returns it unchanged. *)
Lemma SFmul_one (s : bool) (m : positive) (e : Z) :
  Z.log2 (Zpos m) = 23 -> -149 <= e <= 104 ->
  SFmul 24 128 (S754_finite s m e) (B32.of_int 1) = S754_finite s m e.
Proof.
  intros Hm He.
  change (B32.of_int 1) with (S754_finite false 8388608 (-23)).
  unfold SFmul. rewrite xorb_false_r.
  replace (e + -23) with (e - 23) by lia.
  apply binary_round_aux_scaled; try assumption; [lia |].
  rewrite Pos2Z.inj_mul. reflexivity.
Qed.

Lemma trunc_signed (s : bool) (m : positive) (e : Z) :
  e <= 0 ->
  B32.trunc (S754_finite s m e)
  = if s then - (Zpos m / 2 ^ (- e)) else Zpos m / 2 ^ (- e).
Proof.
  intros He. unfold B32.trunc.
  destruct e as [| p | p]; [| lia |].
  - change (- 0) with 0. rewrite Z.pow_0_r, Z.div_1_r. reflexivity.
  - reflexivity.
Qed.

Lemma of_int_times_one (z : Z) :
  - 2 ^ 23 < z < 2 ^ 23 ->
  B32.trunc (SFmul 24 128 (B32.of_int z) (B32.of_int 1)) = z.
Proof.
  intros Hz.
  assert (G : forall (sx : bool) (p : positive),
             Zpos p < 2 ^ 23 ->
             B32.trunc (SFmul 24 128 (binary_round 24 128 sx p 0) (B32.of_int 1))
             = if sx then - Zpos p else Zpos p).
  { intros sx p Hp.
    destruct (binary_round_int sx p Hp) as [E [Hl Hs]].
    set (l := Z.log2 (Zpos p)) in *. rewrite E.
    assert (Em : Zpos (Z.to_pos (Zpos p * 2 ^ (23 - l))) = Zpos p * 2 ^ (23 - l))
      by (apply Z2Pos.id; lia).
    rewrite SFmul_one;
      [| rewrite Em; apply Z.log2_unique; [lia | exact Hs] | lia].
    rewrite trunc_signed by lia. rewrite Em.
    replace (- (l - 23)) with (23 - l) by lia.
    rewrite Z.div_mul by (apply Z.pow_nonzero; lia). reflexivity. }
  unfold B32.of_int, binary_normalize, B32.prec, B32.emax.
  destruct z as [| p | p].
  - reflexivity.
  - apply (G false p). lia.
  - apply (G true p). lia.
Qed.

(** Level vehicle: with a rotation component of exactly 1.0 the tilt
    correction returns every [int16_t] distance unchanged, so [alt_cm] is
    the driver's distance whether or not the correction is compiled in. *)
Theorem tilt_level_is_identity :
  forall (raw : Z),
    Int.in_i16 raw ->
    @correct_for_tilt Binary32 raw (B32.of_int 1) = raw
    /\ forall (cfg : Config) (s : @rangefinder_state_t Binary32) (env : Env),
         RANGEFINDER_ENABLED cfg = true ->
         ahrs_c_z env = B32.of_int 1 ->
         distance_cm_orient (rangefinder env) = raw ->
         alt_cm (fst (read_rangefinder cfg s env)) = raw.
Proof.
  intros raw Hr.
  assert (E : @correct_for_tilt Binary32 raw (B32.of_int 1) = raw).
  { unfold correct_for_tilt. cbn [int16_of_float fmul float_of_int Binary32].
    change (@MAX Binary32 lit_0_707 (B32.of_int 1)) with (B32.of_int 1).
    unfold B32.to_int16, B32.prec, B32.emax.
    rewrite of_int_times_one by (unfold Int.in_i16 in Hr; lia).
    apply i16_small. exact Hr. }
  split; [exact E |].
  intros cfg s env Hc Hz Hd.
  rewrite (cycle_state cfg s env Hc). cbn [alt_cm]. unfold corrected_alt.
  rewrite Hd, Hz, (i16_small raw Hr), E.
  destruct (RANGEFINDER_TILT_CORRECTION cfg); reflexivity.
Qed.

Lemma tilt_level_is_identity_witness :
  @correct_for_tilt Binary32 (-1234) (B32.of_int 1) = -1234.
Proof.
  apply (tilt_level_is_identity (-1234)). unfold Int.in_i16. lia.
Defined.

Lemma SFcompare_Eq_pos (z : spec_float) (m : positive) (e : Z) :
  SFcompare z (S754_finite false m e) = Some Eq -> z = S754_finite false m e.
Proof.
  destruct z as [s | s | | s mz ez]; try destruct s; try discriminate.
  unfold SFcompare. change (Pos.compare_cont Eq mz m) with (mz ?= m)%positive.
  destruct (Z.compare_spec ez e) as [E | E | E]; try discriminate.
  destruct (Pos.compare_spec mz m) as [M | M | M]; try discriminate.
  intros _. subst. reflexivity.
Qed.

Lemma MAX_floor (z : spec_float) :
  SFleb z B32.c_0_707 = true -> @MAX Binary32 lit_0_707 z = B32.c_0_707.
Proof.
  intros H. unfold MAX. cbn [fgt lit_0_707 Binary32]. unfold B32.gt.
  unfold SFleb in H. unfold SFltb.
  destruct (SFcompare z B32.c_0_707) as [[ | | ] |] eqn:E; try discriminate H.
  - apply SFcompare_Eq_pos in E. exact E.
  - reflexivity.
Qed.

(** The floor: for every rotation component at or below 0.707f (zero,
    negative and minus infinity included) the tilt correction gives what it
    gives at 0.707f, for every distance; further tilt no longer changes
    [alt_cm]. *)
Theorem tilt_floor_clamps :
  forall (raw : Z) (z : spec_float),
    SFleb z B32.c_0_707 = true ->
    @correct_for_tilt Binary32 raw z = @correct_for_tilt Binary32 raw B32.c_0_707
    /\ forall (cfg : Config) (s : @rangefinder_state_t Binary32) (env : Env),
         RANGEFINDER_ENABLED cfg = true ->
         RANGEFINDER_TILT_CORRECTION cfg = true ->
         ahrs_c_z env = z ->
         distance_cm_orient (rangefinder env) = raw ->
         alt_cm (fst (read_rangefinder cfg s env))
         = @correct_for_tilt Binary32 (Int.i16 raw) B32.c_0_707.
Proof.
  intros raw z Hz.
  assert (E : forall r, @correct_for_tilt Binary32 r z
                        = @correct_for_tilt Binary32 r B32.c_0_707).
  { intros r. unfold correct_for_tilt. rewrite (MAX_floor z Hz). reflexivity. }
  split; [apply E |].
  intros cfg s env Hc Ht Ha Hd.
  rewrite (cycle_state cfg s env Hc). cbn [alt_cm].
  rewrite (corrected_alt_tilt cfg env Ht), Hd, Ha. apply E.
Qed.

Lemma tilt_floor_clamps_witness :
  @correct_for_tilt Binary32 1000 (S754_finite true 12582912 (-24))
  = @correct_for_tilt Binary32 1000 B32.c_0_707.
Proof.
  apply (tilt_floor_clamps 1000 (S754_finite true 12582912 (-24))). reflexivity.
Defined.

(** An integer below 2^24 followed by at least 23 zero bits rounds to
    itself. *)
Lemma round24_int (k j : Z) :
  1 <= k < 2 ^ 24 -> 23 <= j -> round24 (k * 2 ^ j) = k * 2 ^ j.
Proof.
  intros Hk Hj.
  destruct (Z.log2_spec k ltac:(lia)) as [L U].
  set (lk := Z.log2 k) in *.
  assert (Hl0 : 0 <= lk) by apply Z.log2_nonneg.
  assert (Hl : lk < 24) by (apply (Z.pow_lt_mono_r_iff 2); lia).
  assert (E : k * 2 ^ j = k * 2 ^ (23 - lk) * 2 ^ (j - 23 + lk)).
  { rewrite <- Z.mul_assoc, <- Z.pow_add_r by lia. do 2 f_equal. lia. }
  rewrite E. apply round24_exact; [| lia].
  assert (E1 : 2 ^ 23 = 2 ^ lk * 2 ^ (23 - lk))
    by (rewrite <- Z.pow_add_r by lia; f_equal; lia).
  assert (E2 : 2 ^ 24 = 2 ^ Z.succ lk * 2 ^ (23 - lk))
    by (rewrite <- Z.pow_add_r by lia; f_equal; lia).
  assert (0 < 2 ^ (23 - lk)) by (apply Z.pow_pos_nonneg; lia).
  rewrite E1, E2. nia.
Qed.

Lemma tilt_model_within_one (raw m : Z) :
  1 <= raw < 2 ^ 15 -> 2 ^ 23 <= m <= 2 ^ 24 ->
  raw * m / 2 ^ 24 <= tilt_model raw m <= raw * m / 2 ^ 24 + 1.
Proof.
  intros Hr Hm.
  destruct (of_int_pos raw Hr) as [_ [Hl HA]].
  destruct (product_log2 raw Hr m ltac:(lia)) as [Lp Pp].
  pose proof (tilt_model_nonneg raw Hr m ltac:(lia)) as T0.
  unfold tilt_model in *.
  set (l := Z.log2 raw) in *.
  set (P := raw * 2 ^ (23 - l) * m) in *.
  set (k := raw * m / 2 ^ 24).
  assert (Hs : 0 < 2 ^ (23 - l)) by (apply Z.pow_pos_nonneg; lia).
  assert (EK : 2 ^ (47 - l) = 2 ^ 24 * 2 ^ (23 - l))
    by (rewrite <- Z.pow_add_r by lia; f_equal; lia).
  assert (HK : 0 < 2 ^ (47 - l)) by (apply Z.pow_pos_nonneg; lia).
  assert (EP : P = raw * m * 2 ^ (23 - l)) by (unfold P; ring).
  pose proof (Z.div_mod (raw * m) (2 ^ 24) ltac:(lia)) as D.
  pose proof (Z.mod_pos_bound (raw * m) (2 ^ 24) ltac:(lia)) as B.
  fold k in D.
  assert (Hk0 : 0 <= k) by (apply Z.div_pos; nia).
  assert (Hk1 : k < 2 ^ 15).
  { apply Z.div_lt_upper_bound; [lia |].
    change (2 ^ 24) with 16777216 in *. change (2 ^ 15) with 32768 in *. nia. }
  assert (Lo : k * 2 ^ (47 - l) <= P) by (rewrite EK, EP; nia).
  assert (Hi : P <= (k + 1) * 2 ^ (47 - l)) by (rewrite EK, EP; nia).
  split.
  - destruct (Z.eq_dec k 0) as [E0 | N0]; [lia |].
    apply Z.div_le_lower_bound; [exact HK |].
    rewrite Z.mul_comm, <- (round24_int k (47 - l)) by lia.
    apply round24_mono; [nia | | exact Lo].
    apply Z.log2_le_pow2; [nia |].
    assert (2 ^ 23 <= 2 ^ (47 - l)) by (apply Z.pow_le_mono_r; lia). nia.
  - apply Z.div_le_upper_bound; [exact HK |].
    rewrite Z.mul_comm, <- (round24_int (k + 1) (47 - l)) by lia.
    apply round24_mono; [exact Pp | exact Lp | exact Hi].
Qed.

Lemma frac24_to_Q (z : spec_float) :
  valid_binary 24 128 z = true ->
  SFleb z (B32.of_int 1) = true ->
  (B32.to_Q (@MAX Binary32 lit_0_707 z)
   == frac24 (@MAX Binary32 lit_0_707 z) # 2 ^ 24)%Q.
Proof.
  intros Hv H1.
  destruct (MAX_cases z Hv H1) as [[_ E] | [_ [E [[m [Ez B]] | Ez]]]]; rewrite E.
  - reflexivity.
  - subst z. unfold B32.to_Q, frac24. change (-24 + 24) with 0.
    rewrite Z.pow_0_r, Z.mul_1_r. reflexivity.
  - subst z. reflexivity.
Qed.

(** Accuracy of the correction: for a distance in [0, 32767] and a rotation
    component at most 1, the stored value is the integer part of the exact
    product of the distance and the factor [MAX(0.707f, z)], or that integer
    plus one; single-precision rounding never costs more than the last
    centimetre and never loses one. *)
Theorem tilt_within_one_of_exact :
  forall (raw : Z) (z : spec_float),
    0 <= raw < 2 ^ 15 ->
    valid_binary 24 128 z = true ->
    SFleb z (B32.of_int 1) = true ->
    let exact := (inject_Z raw * B32.to_Q (@MAX Binary32 lit_0_707 z))%Q in
    Qfloor exact <= @correct_for_tilt Binary32 raw z <= Qfloor exact + 1.
Proof.
  intros raw z Hr Hv H1 exact.
  set (m := frac24 (@MAX Binary32 lit_0_707 z)).
  assert (Ef : Qfloor exact = raw * m / 2 ^ 24).
  { unfold exact. rewrite (Qfloor_comp _ (inject_Z raw * (m # 2 ^ 24))%Q).
    - unfold Qfloor, Qmult, inject_Z. cbn [Qnum Qden].
      rewrite Pos.mul_1_l. reflexivity.
    - rewrite (frac24_to_Q z Hv H1). reflexivity. }
  rewrite Ef.
  destruct (correct_for_tilt_binary32 raw z Hr Hv H1) as [_ [B M]].
  pose proof (frac24_MAX z Hv H1) as Fm. fold m in Fm.
  destruct (Z.eq_dec raw 0) as [E0 | N0].
  - subst raw. rewrite Z.mul_0_l. change (0 / 2 ^ 24) with 0. lia.
  - rewrite (M ltac:(lia)). fold m.
    apply tilt_model_within_one; [lia |].
    change (2 ^ 23) with 8388608. lia.
Qed.

Lemma tilt_within_one_of_exact_witness :
  Qfloor (inject_Z 1000 * B32.to_Q (@MAX Binary32 lit_0_707 B32.c_0_75))
  <= @correct_for_tilt Binary32 1000 B32.c_0_75
  <= Qfloor (inject_Z 1000 * B32.to_Q (@MAX Binary32 lit_0_707 B32.c_0_75)) + 1.
Proof.
  apply (tilt_within_one_of_exact 1000 B32.c_0_75 ltac:(lia) eq_refl eq_refl).
Defined.

(** ** Runs of the calibration monitor *)

Lemma run_barometer_cons (sub : Baro.SubBaro) (b : Baro.AP_Baro)
    (rest : list Baro.AP_Baro) :
  run_barometer sub (b :: rest)
  = (fst (run_barometer (fst (Baro.read_barometer sub b)) rest),
     snd (Baro.read_barometer sub b)
       ++ snd (run_barometer (fst (Baro.read_barometer sub b)) rest)).
Proof.
  cbn [run_barometer].
  destruct (Baro.read_barometer sub b) as [sub1 calls1]. cbn [fst snd].
  destruct (run_barometer sub1 rest) as [sub2 calls2]. reflexivity.
Qed.

(** Over any run, the driver is updated once per call, and the
    self-calibration routine is invoked once for each reading with a
    strictly positive altitude and never otherwise. *)
Theorem calibration_once_per_positive_reading :
  forall (sub : Baro.SubBaro) (readings : list Baro.AP_Baro),
    length (filter is_update (snd (run_barometer sub readings)))
    = length readings
    /\ length (filter is_update_calibration (snd (run_barometer sub readings)))
       = length (filter (fun b => 0 <? Baro.get_altitude b) readings).
Proof.
  intros sub readings. revert sub.
  induction readings as [| b rest IH]; intros sub.
  - split; reflexivity.
  - rewrite run_barometer_cons. cbn [snd].
    destruct (IH (fst (Baro.read_barometer sub b))) as [I1 I2].
    rewrite !filter_app, !length_app, I1, I2.
    unfold Baro.read_barometer. cbn [snd filter].
    destruct (0 <? Baro.get_altitude b); split; reflexivity.
Qed.

(** The depth-sensor health flag follows the latest reading: after a run
    that ends with reading [b] it is the barometer's health at
    [depth_sensor_idx] in [b] when a depth sensor is present, and it is
    never written when none is; the run never changes
    [depth_sensor_present] or [depth_sensor_idx]. *)
Theorem depth_health_tracks_latest :
  forall (sub : Baro.SubBaro) (readings : list Baro.AP_Baro) (b : Baro.AP_Baro),
    let sub' := fst (run_barometer sub (readings ++ [b])) in
    Baro.depth_sensor_present sub' = Baro.depth_sensor_present sub
    /\ Baro.depth_sensor_idx sub' = Baro.depth_sensor_idx sub
    /\ Baro.sensor_health_depth sub'
       = if Baro.depth_sensor_present sub
         then Baro.healthy b (Baro.depth_sensor_idx sub)
         else Baro.sensor_health_depth sub.
Proof.
  intros sub readings. revert sub.
  induction readings as [| b0 rest IH]; intros sub b sub'; unfold sub'.
  - cbn [app]. rewrite run_barometer_cons. cbn [fst run_barometer].
    unfold Baro.read_barometer. cbn [fst].
    destruct (Baro.depth_sensor_present sub) eqn:Hp; cbn; rewrite ?Hp; auto.
  - cbn [app]. rewrite run_barometer_cons. cbn [fst].
    destruct (IH (fst (Baro.read_barometer sub b0)) b) as [I1 [I2 I3]].
    rewrite I1, I2, I3. unfold Baro.read_barometer. cbn [fst].
    destruct (Baro.depth_sensor_present sub) eqn:Hp; cbn; rewrite ?Hp; auto.
Qed.
